(** * The Editor coordinator of editablejs (packages/core/src/index.ts)

    A shallow embedding of the [Editor] class: the per-instance plugin
    registry and its construction from the process-wide one, plugin
    rendering, the update and composition-update subscription maps, the
    fan-out of node-update notifications, and the composition state machine
    driven by the signals of the Selection Model. *)

From Stdlib Require Import ZArith List String Ascii Bool Lia.
From stdpp Require Import base option list strings gmap fin_maps.
Import ListNotations.

Local Open Scope string_scope.
Local Open Scope list_scope.
Local Open Scope Z_scope.

(** ** Strings

    A JavaScript string is a sequence of UTF-16 code units.  Text buffers are
    modelled as such, since [length] and [substring] count code units.  Node
    keys and type tags are only ever compared for equality and used as map
    keys, so they are kept as plain strings. *)

Abbreviation JSString := (list N).

Abbreviation NodeKey := string.

(** Code units of an ASCII literal. *)
Fixpoint js (s : string) : JSString :=
  match s with
  | EmptyString => []
  | String c s' => N_of_ascii c :: js s'
  end.

Definition js_length (s : JSString) : Z := Z.of_nat (length s).

(** [String.prototype.substring(start, end)]: both indices are clamped to
    [0, length] and swapped when [start > end]; a missing [end] stands for
    the length. *)
Definition clamp (len x : Z) : Z := Z.max 0 (Z.min x len).

Definition substring (s : JSString) (start : Z) (end_ : option Z) : JSString :=
  let len := js_length s in
  let a := clamp len start in
  let b := match end_ with
           | Some e => clamp len e
           | None => len
           end in
  let from := Z.min a b in
  let to := Z.max a b in
  take (Z.to_nat (to - from)) (drop (Z.to_nat from) s).

(** ** Nodes and operations (the part of @editablejs/model the Editor uses) *)

#[warnings="-register-all"]
Inductive Node : Type :=
| Element (key : NodeKey) (type : string) (children : list Node)
| Text (key : NodeKey) (type : string) (text : JSString).

Definition getKey (n : Node) : NodeKey :=
  match n with
  | Element k _ _ => k
  | Text k _ _ => k
  end.

Definition getType (n : Node) : string :=
  match n with
  | Element _ t _ => t
  | Text _ t _ => t
  end.

Definition isElement (n : Node) : bool :=
  match n with
  | Element _ _ _ => true
  | Text _ _ _ => false
  end.

Definition getChildren (n : Node) : list Node :=
  match n with
  | Element _ _ cs => cs
  | Text _ _ _ => []
  end.

(** An operation carries the key of the node it applies to; the rest of the
    record is not inspected by the Editor. *)
Record Op : Type := mkOp { op_key : NodeKey; op_id : nat }.

Record Point : Type := mkPoint { point_key : NodeKey; point_offset : Z }.

Record Range : Type := mkRange { anchor : Point; focus : Point }.

(** ** Plugins and rendering *)

(** What a render function may produce: [next] on a non-element yields
    [undefined], on an element the array of its children's renderings. *)
#[warnings="-register-all"]
Inductive Rendered : Type :=
| RUndefined
| RArray (items : list Rendered)
| RView (tag : string) (parts : list Rendered).

Inductive JSError : Type :=
| PluginNotFoundError (type : string)
| TypeErrorUndefinedRender
| RenderError (message : string).

Inductive Completion (A : Type) : Type :=
| Normal (a : A)
| Throw (e : JSError)
| OutOfFuel.

Arguments Normal {A} a.
Arguments Throw {A} e.
Arguments OutOfFuel {A}.

Inductive Diagnostic : Type :=
| DiagPluginNotFound (type : string).

(** A rendering computation: the diagnostics reported so far, in order, and
    how the computation completed. *)
Definition RenderM (A : Type) : Type := (list Diagnostic * Completion A)%type.

Definition rret {A} (a : A) : RenderM A := ([], Normal a).

Definition rbind {A B} (m : RenderM A) (k : A -> RenderM B) : RenderM B :=
  match m with
  | (d, Normal a) => let r := k a in (d ++ fst r, snd r)
  | (d, Throw e) => (d, Throw e)
  | (d, OutOfFuel) => (d, OutOfFuel)
  end.

Definition rthrow {A} (e : JSError) : RenderM A := ([], Throw e).

(** [Array.prototype.map] with a callback that may throw. *)
Fixpoint rmap {A B} (f : A -> RenderM B) (l : list A) : RenderM (list B) :=
  match l with
  | [] => rret []
  | x :: l' => rbind (f x) (fun y => rbind (rmap f l') (fun ys => rret (y :: ys)))
  end.

(** A render function receives the node and [next]; the editor handle it
    also receives is not an argument here. *)
Definition PluginRender : Type :=
  Node -> (Node -> RenderM Rendered) -> RenderM Rendered.

Record PluginOptions : Type := mkPluginOptions { render : PluginRender }.

Abbreviation IPluginMap := (gmap string PluginOptions).

(** The argument of [registerPlugin]: a bare render function or an options
    object ([typeof options === 'function'] tells them apart). *)
Inductive PluginArg : Type :=
| ArgFunction (f : PluginRender)
| ArgOptions (o : PluginOptions).

Definition normalizeOptions (options : PluginArg) : PluginOptions :=
  match options with
  | ArgFunction f => {| render := f |}
  | ArgOptions o => o
  end.

(** Static [Editor.registerPlugin], acting on the process-wide [_pluginMap]. *)
Definition Editor_registerPlugin (type : string) (options : PluginArg)
    (_pluginMap : IPluginMap) : IPluginMap :=
  <[type := normalizeOptions options]> _pluginMap.

(** Instance [registerPlugin], acting on [this.pluginMap]. *)
Definition registerPlugin (name : string) (options : PluginArg)
    (pluginMap : IPluginMap) : IPluginMap :=
  <[name := normalizeOptions options]> pluginMap.

(** [Log.pluginNotFound] lives in @editablejs/utils.  It either reports and
    returns, or reports by throwing; the Editor is modelled for both. *)
Inductive LogPolicy : Type :=
| LogReturns
| LogThrows.

Definition Log_pluginNotFound (policy : LogPolicy) (type : string) : RenderM unit :=
  match policy with
  | LogReturns => ([DiagPluginNotFound type], Normal tt)
  | LogThrows => ([DiagPluginNotFound type], Throw (PluginNotFoundError type))
  end.

(** [renderPlugin].  Render functions may call [next] on any node, so the
    recursion is bounded by the nesting depth [fuel]. *)
Fixpoint renderPlugin (policy : LogPolicy) (fuel : nat) (pluginMap : IPluginMap)
    (node : Node) : RenderM Rendered :=
  match fuel with
  | O => ([], OutOfFuel)
  | S fuel' =>
      let type := getType node in
      let plugin := pluginMap !! type in
      rbind (match plugin with
             | None => Log_pluginNotFound policy type
             | Some _ => rret tt
             end)
        (fun _ =>
           let next : Node -> RenderM Rendered := fun renderNode =>
             if isElement renderNode then
               let children := getChildren renderNode in
               rbind (rmap (fun child => renderPlugin policy fuel' pluginMap child)
                        children)
                 (fun rs => rret (RArray rs))
             else rret RUndefined in
           match plugin with
           | None => rthrow TypeErrorUndefinedRender
           | Some p => render p node next
           end)
  end.

(** ** Construction of the per-instance plugin map *)

Record EditorOptions : Type := mkEditorOptions {
  enabledPlugins : option (list string);
  disabledPlugins : option (list string)
}.

(** [Array.prototype.includes] on a list of names. *)
Fixpoint includes (l : list string) (name : string) : bool :=
  match l with
  | [] => false
  | x :: l' => if String.eqb x name then true else includes l' name
  end.

(** The plugin-selection part of the constructor (lines 60 to 74):
    [this.pluginMap] starts empty and is filled from [_pluginMap]. *)
Definition constructor_plugins (_pluginMap : IPluginMap)
    (options : option EditorOptions) : IPluginMap :=
  let enabled := match options with Some o => enabledPlugins o | None => None end in
  let disabled := match options with Some o => disabledPlugins o | None => None end in
  match enabled with
  | Some names =>
      fold_left (fun pluginMap name =>
                   match _pluginMap !! name with
                   | Some pluginOptions =>
                       registerPlugin name (ArgOptions pluginOptions) pluginMap
                   | None => pluginMap
                   end) names ∅
  | None =>
      map_fold (fun name plugin pluginMap =>
                  if match disabled with
                     | None => true
                     | Some l => includes l name
                     end
                  then registerPlugin name (ArgOptions plugin) pluginMap
                  else pluginMap) ∅ _pluginMap
  end.

(** ** Collaborators

    The Change Pipeline, the Selection Model and the Node Model are separate
    packages.  The Editor reaches them through the methods below; [D] is
    their joint state (the document, its selection and the pending
    formatting).  A call returns the new state; the node-update
    notifications the Node Model emits because of it reach the Editor as
    [EVENT_NODE_UPDATE] signals of their own. *)

Class Document (D : Type) : Type := {
  (* IChange *)
  change_hasCacheFormatting : D -> bool;
  change_insertText : JSString -> D -> D;
  change_deleteContents : D -> D;
  change_getRange : D -> option Range;
  (* ISelection *)
  selection_isCollapsed : D -> bool;
  selection_destroy : D -> D;
  (* IModel *)
  model_getNode : D -> NodeKey -> option Node;
  model_destroy : D -> D
}.

(** ** Editor state *)

(** Subscribers are opaque: the Editor only stores and invokes them, and an
    invocation is recorded in the trace without changing the Editor. *)
Abbreviation NodeUpdateCallback := nat.
Abbreviation CompositionUpdateCallback := nat.

Record Char : Type := mkChar { char_type : string; char_text : JSString }.

Record CompositionUpdateParams : Type := mkParams {
  chars : list Char;
  params_text : JSString;
  params_offset : Z
}.

Record CompositionInfo : Type := mkInfo { info_key : NodeKey; info_text : JSString }.

(** What an Editor method does, in program order: calls into the
    collaborators, invocations of subscribers, and writes to the Editor's own
    fields. *)
Inductive Event : Type :=
| CallInsertText (text : JSString)
| CallDeleteContents
| CallModelDestroy
| CallSelectionDestroy
| CallTypingKeydown
| CallTypingKeyup
| CallUpdate (callback : NodeUpdateCallback) (node : Node) (ops : list Op)
| CallCompositionUpdate (callback : CompositionUpdateCallback)
    (params : option CompositionUpdateParams)
| SetIsComposition (value : bool)
| SetCompositionInfo (info : option CompositionInfo)
| UpdateMapSet (key : NodeKey) (callback : NodeUpdateCallback)
| UpdateMapDelete (key : NodeKey)
| UpdateMapClear
| PluginMapClear
| CompositionUpdateMapSet (key : NodeKey) (callback : CompositionUpdateCallback)
| CompositionUpdateMapDelete (key : NodeKey)
| CacheSet (key : NodeKey) (params : CompositionUpdateParams)
| CacheDelete (key : NodeKey).

Section Editor.

Context {D : Type} `{!Document D}.

Record Editor : Type := mkEditor {
  pluginMap : gmap string PluginOptions;
  updateMap : gmap NodeKey NodeUpdateCallback;
  compositionUpdateMap : gmap NodeKey CompositionUpdateCallback;
  _isComposition : bool;
  _compositionInfo : option CompositionInfo;
  _cacheCompositionUpdate : gmap NodeKey CompositionUpdateParams;
  doc : D
}.

Definition with_pluginMap (f : gmap string PluginOptions -> gmap string PluginOptions)
    (ed : Editor) : Editor :=
  mkEditor (f (pluginMap ed)) (updateMap ed) (compositionUpdateMap ed)
    (_isComposition ed) (_compositionInfo ed) (_cacheCompositionUpdate ed) (doc ed).

Definition with_updateMap (f : gmap NodeKey NodeUpdateCallback -> gmap NodeKey NodeUpdateCallback)
    (ed : Editor) : Editor :=
  mkEditor (pluginMap ed) (f (updateMap ed)) (compositionUpdateMap ed)
    (_isComposition ed) (_compositionInfo ed) (_cacheCompositionUpdate ed) (doc ed).

Definition with_compositionUpdateMap
    (f : gmap NodeKey CompositionUpdateCallback -> gmap NodeKey CompositionUpdateCallback)
    (ed : Editor) : Editor :=
  mkEditor (pluginMap ed) (updateMap ed) (f (compositionUpdateMap ed))
    (_isComposition ed) (_compositionInfo ed) (_cacheCompositionUpdate ed) (doc ed).

Definition with_isComposition (b : bool) (ed : Editor) : Editor :=
  mkEditor (pluginMap ed) (updateMap ed) (compositionUpdateMap ed)
    b (_compositionInfo ed) (_cacheCompositionUpdate ed) (doc ed).

Definition with_compositionInfo (i : option CompositionInfo) (ed : Editor) : Editor :=
  mkEditor (pluginMap ed) (updateMap ed) (compositionUpdateMap ed)
    (_isComposition ed) i (_cacheCompositionUpdate ed) (doc ed).

Definition with_cache
    (f : gmap NodeKey CompositionUpdateParams -> gmap NodeKey CompositionUpdateParams)
    (ed : Editor) : Editor :=
  mkEditor (pluginMap ed) (updateMap ed) (compositionUpdateMap ed)
    (_isComposition ed) (_compositionInfo ed) (f (_cacheCompositionUpdate ed)) (doc ed).

Definition with_doc (f : D -> D) (ed : Editor) : Editor :=
  mkEditor (pluginMap ed) (updateMap ed) (compositionUpdateMap ed)
    (_isComposition ed) (_compositionInfo ed) (_cacheCompositionUpdate ed) (f (doc ed)).

(** *** The method monad: editor state and a trace of events *)

Definition M (A : Type) : Type := Editor -> (A * Editor * list Event)%type.

Definition ret {A} (a : A) : M A := fun ed => (a, ed, []).

Definition bind {A B} (m : M A) (k : A -> M B) : M B := fun ed =>
  let '(a, ed1, t1) := m ed in
  let '(b, ed2, t2) := k a ed1 in
  (b, ed2, t1 ++ t2).

Definition gets {A} (f : Editor -> A) : M A := fun ed => (f ed, ed, []).

Definition modify (f : Editor -> Editor) : M unit := fun ed => (tt, f ed, []).

Definition emit (e : Event) : M unit := fun ed => (tt, ed, [e]).

Definition state_of {A} (r : A * Editor * list Event) : Editor := snd (fst r).
Definition trace_of {A} (r : A * Editor * list Event) : list Event := snd r.

#[global] Instance M_ret : MRet M := @ret.
#[global] Instance M_bind : MBind M := fun A B k m => bind m k.

End Editor.

Arguments Editor D : clear implicits.
Arguments M D A : clear implicits.

(** ** Editor methods *)

Section Methods.

Context {D : Type} `{!Document D}.

Implicit Types (ed : Editor D) (key : NodeKey) (text : JSString).

(** [if] without [else], and early [return]. *)
Definition skip : M D unit := ret tt.

(** Calls into the collaborators. *)
Definition call_insertText (text : JSString) : M D unit :=
  emit (CallInsertText text) ;; modify (with_doc (change_insertText text)).

Definition call_deleteContents : M D unit :=
  emit CallDeleteContents ;; modify (with_doc change_deleteContents).

Definition call_modelDestroy : M D unit :=
  emit CallModelDestroy ;; modify (with_doc model_destroy).

Definition call_selectionDestroy : M D unit :=
  emit CallSelectionDestroy ;; modify (with_doc selection_destroy).

(** Writes to the Editor's fields. *)
Definition set_isComposition (b : bool) : M D unit :=
  emit (SetIsComposition b) ;; modify (with_isComposition b).

Definition set_compositionInfo (i : option CompositionInfo) : M D unit :=
  emit (SetCompositionInfo i) ;; modify (with_compositionInfo i).

Definition updateMap_set (key : NodeKey) (callback : NodeUpdateCallback) : M D unit :=
  emit (UpdateMapSet key callback) ;;
  modify (with_updateMap (fun m => <[key := callback]> m)).

Definition updateMap_delete (key : NodeKey) : M D unit :=
  emit (UpdateMapDelete key) ;; modify (with_updateMap (fun m => delete key m)).

Definition updateMap_clear : M D unit :=
  emit UpdateMapClear ;; modify (with_updateMap (fun _ => ∅)).

Definition pluginMap_clear : M D unit :=
  emit PluginMapClear ;; modify (with_pluginMap (fun _ => ∅)).

Definition compositionUpdateMap_set (key : NodeKey)
    (callback : CompositionUpdateCallback) : M D unit :=
  emit (CompositionUpdateMapSet key callback) ;;
  modify (with_compositionUpdateMap (fun m => <[key := callback]> m)).

Definition compositionUpdateMap_delete (key : NodeKey) : M D unit :=
  emit (CompositionUpdateMapDelete key) ;;
  modify (with_compositionUpdateMap (fun m => delete key m)).

Definition cache_set (key : NodeKey) (params : CompositionUpdateParams) : M D unit :=
  emit (CacheSet key params) ;; modify (with_cache (fun m => <[key := params]> m)).

Definition cache_delete (key : NodeKey) : M D unit :=
  emit (CacheDelete key) ;; modify (with_cache (fun m => delete key m)).

(** The constructor: plugin selection, fresh maps, composition idle. *)
Definition new_Editor (_pluginMap : IPluginMap) (options : option EditorOptions)
    (d : D) : Editor D :=
  {| pluginMap := constructor_plugins _pluginMap options;
     updateMap := ∅;
     compositionUpdateMap := ∅;
     _isComposition := false;
     _compositionInfo := None;
     _cacheCompositionUpdate := ∅;
     doc := d |}.

Definition isComposition : M D bool := gets _isComposition.

Definition onUpdate (key : NodeKey) (callback : NodeUpdateCallback) : M D unit :=
  updateMap_set key callback.

Definition offUpdate (key : NodeKey) : M D unit :=
  updateMap_delete key.

Definition onCompositionUpdate (key : NodeKey)
    (callback : CompositionUpdateCallback) : M D unit :=
  cache ← gets (fun ed => _cacheCompositionUpdate ed !! key);
  match cache with
  | Some c => emit (CallCompositionUpdate callback (Some c))
  | None => skip
  end ;;
  compositionUpdateMap_set key callback.

Definition offCompositionUpdate (key : NodeKey) : M D unit :=
  cache_delete key ;;
  compositionUpdateMap_delete key.

(** The chunks built at lines 213 to 227. *)
Definition segmentation (nodeText : JSString) (offset : Z) (text : JSString)
    : list Char :=
  let chars := [] in
  let chars := chars ++ [ {| char_type := "text";
                             char_text := substring nodeText 0 (Some offset) |} ] in
  let chars := chars ++ [ {| char_type := "composition"; char_text := text |} ] in
  if offset <? js_length nodeText
  then chars ++ [ {| char_type := "text";
                     char_text := substring nodeText offset None |} ]
  else chars.

Definition emitCompositionUpdate (text : JSString) : M D unit :=
  pending ← gets (fun ed => change_hasCacheFormatting (doc ed));
  (if (pending : bool) then call_insertText [] else skip) ;;
  range ← gets (fun ed => change_getRange (doc ed));
  match range with
  | None => skip
  | Some range =>
      let key := point_key (anchor range) in
      let offset := point_offset (anchor range) in
      set_compositionInfo (Some {| info_key := key; info_text := text |}) ;;
      node ← gets (fun ed => model_getNode (doc ed) key);
      match node with
      | Some (Text _ _ nodeText) =>
          let chars := segmentation nodeText offset text in
          callback ← gets (fun ed => compositionUpdateMap ed !! key);
          let params := {| chars := chars; params_text := text;
                           params_offset := offset |} in
          match callback with
          | Some cb =>
              cache_delete key ;;
              emit (CallCompositionUpdate cb (Some params))
          | None =>
              cache_set key params
          end
      | _ => skip
      end
  end.

(** [emitUpdate]: children first, each with the operations filtered on its
    key, then the node's own subscriber, the wildcard subscriber, and the
    composition refresh. *)
Fixpoint emitUpdate (node : Node) (ops : list Op) : M D unit :=
  match node with
  | Element _ _ children =>
      (fix forEach (cs : list Node) : M D unit :=
         match cs with
         | [] => skip
         | child :: cs' =>
             emitUpdate child
               (List.filter (fun op => String.eqb (op_key op) (getKey child)) ops) ;;
             forEach cs'
         end) children
  | Text _ _ _ => skip
  end ;;
  let key := getKey node in
  callback ← gets (fun ed => updateMap ed !! key);
  match callback with
  | Some cb => emit (CallUpdate cb node ops)
  | None => skip
  end ;;
  callback ← gets (fun ed => updateMap ed !! "*");
  match callback with
  | Some cb => emit (CallUpdate cb node ops)
  | None => skip
  end ;;
  info ← gets _compositionInfo;
  match info with
  | Some i => if String.eqb (info_key i) key
              then emitCompositionUpdate (info_text i)
              else skip
  | None => skip
  end.

Definition destroy : M D unit :=
  updateMap_clear ;;
  pluginMap_clear ;;
  call_modelDestroy ;;
  call_selectionDestroy.

(** *** Signals wired in the constructor *)

Inductive Signal : Type :=
| EVENT_NODE_UPDATE (node : Node) (ops : list Op)
| EVENT_VALUE_CHANGE (value : JSString)
| EVENT_KEYDOWN
| EVENT_KEYUP
| EVENT_COMPOSITION_START
| EVENT_COMPOSITION_END (data : JSString).

Definition on_value_change (value : JSString) : M D unit :=
  collapsed ← gets (fun ed => selection_isCollapsed (doc ed));
  (if negb (collapsed : bool) then call_deleteContents else skip) ;;
  composing ← isComposition;
  if (composing : bool) then emitCompositionUpdate value else call_insertText value.

Definition on_composition_start : M D unit :=
  set_isComposition true.

Definition on_composition_end (data : JSString) : M D unit :=
  set_isComposition false ;;
  info ← gets _compositionInfo;
  match info with
  | Some i =>
      callback ← gets (fun ed => compositionUpdateMap ed !! info_key i);
      match callback with
      | Some cb => emit (CallCompositionUpdate cb None)
      | None => skip
      end
  | None => skip
  end ;;
  set_compositionInfo None ;;
  call_insertText data.

Definition handle (s : Signal) : M D unit :=
  match s with
  | EVENT_NODE_UPDATE node ops => emitUpdate node ops
  | EVENT_VALUE_CHANGE value => on_value_change value
  | EVENT_KEYDOWN => emit CallTypingKeydown
  | EVENT_KEYUP => emit CallTypingKeyup
  | EVENT_COMPOSITION_START => on_composition_start
  | EVENT_COMPOSITION_END data => on_composition_end data
  end.

(** Several signals in a row. *)
Fixpoint handle_all (ss : list Signal) : M D unit :=
  match ss with
  | [] => skip
  | s :: ss' => handle s ;; handle_all ss'
  end.

End Methods.

(** ** A one-line document

    Modelled from the spec: the Change Pipeline, Selection Model and Node
    Model are not part of the Editor's file.  This instance is the smallest
    document that follows sections 4.1, 4.3 and 4.4: a single Text node, a
    selection inside it, and a flag for queued formatting.  It is used to run
    the Editor on concrete inputs. *)

Record LineDoc : Type := mkLine {
  line_key : NodeKey;
  line_text : JSString;
  line_anchor : Z;
  line_focus : Z;
  line_pending : bool
}.

Definition line_deleteContents (d : LineDoc) : LineDoc :=
  let start := Z.min (line_anchor d) (line_focus d) in
  let stop := Z.max (line_anchor d) (line_focus d) in
  {| line_key := line_key d;
     line_text := substring (line_text d) 0 (Some start)
                  ++ substring (line_text d) stop None;
     line_anchor := start;
     line_focus := start;
     line_pending := line_pending d |}.

Definition line_insertText (text : JSString) (d : LineDoc) : LineDoc :=
  let d1 := if line_anchor d =? line_focus d then d else line_deleteContents d in
  {| line_key := line_key d1;
     line_text := substring (line_text d1) 0 (Some (line_anchor d1))
                  ++ text ++ substring (line_text d1) (line_anchor d1) None;
     line_anchor := line_anchor d1 + js_length text;
     line_focus := line_anchor d1 + js_length text;
     line_pending := false |}.

#[global] Instance LineDoc_Document : Document LineDoc := {
  change_hasCacheFormatting := line_pending;
  change_insertText := line_insertText;
  change_deleteContents := line_deleteContents;
  change_getRange := fun d =>
    Some {| anchor := mkPoint (line_key d) (line_anchor d);
            focus := mkPoint (line_key d) (line_focus d) |};
  selection_isCollapsed := fun d => line_anchor d =? line_focus d;
  selection_destroy := fun d => d;
  model_getNode := fun d key =>
    if String.eqb key (line_key d)
    then Some (Text (line_key d) "text" (line_text d))
    else None;
  model_destroy := fun d => d
}.

(** An editor over a one-line document with no plugin and no subscriber. *)
Definition line_editor (d : LineDoc) : Editor LineDoc :=
  new_Editor ∅ None d.

(** The code unit of e with acute accent. *)
Definition e_acute : JSString := [233%N].

(** ** Vocabulary of the statements *)

(** A rendering that completed with a value. *)
Definition returns_result (m : RenderM Rendered) : Prop :=
  exists r, snd m = Normal r.

(** Number of entries a subscription map holds for a key. *)
Definition registrations {V : Type} (m : gmap NodeKey V) (key : NodeKey) : nat :=
  length (List.filter (fun kv => String.eqb (fst kv) key) (map_to_list m)).

(** The operations of a list that carry a given key. *)
Definition ops_for (key : NodeKey) (ops : list Op) : list Op :=
  List.filter (fun op => String.eqb (op_key op) key) ops.

(** The nodes of a subtree, children before their parent. *)
Fixpoint postorder (node : Node) : list Node :=
  match node with
  | Element _ _ children =>
      (fix go (cs : list Node) : list Node :=
         match cs with
         | [] => []
         | c :: cs' => postorder c ++ go cs'
         end) children
  | Text _ _ _ => []
  end ++ [node].

(** The strict descendants of a node. *)
Definition descendants (node : Node) : list Node :=
  removelast (postorder node).

(** The fan-out as the update subscription surface describes it: every node
    of the subtree bottom-up, each child paired with the operations of its
    parent's list that carry the child's key. *)
Fixpoint visits (node : Node) (ops : list Op) : list (Node * list Op) :=
  match node with
  | Element _ _ children =>
      (fix go (cs : list Node) : list (Node * list Op) :=
         match cs with
         | [] => []
         | c :: cs' => visits c (ops_for (getKey c) ops) ++ go cs'
         end) children
  | Text _ _ _ => []
  end ++ [(node, ops)].

(** The subscriber invocations one visit causes: the node's own key first,
    then the wildcard. *)
Definition update_calls (m : gmap NodeKey NodeUpdateCallback)
    (v : Node * list Op) : list Event :=
  match m !! getKey (fst v) with
  | Some cb => [CallUpdate cb (fst v) (snd v)]
  | None => []
  end ++
  match m !! "*" with
  | Some cb => [CallUpdate cb (fst v) (snd v)]
  | None => []
  end.

Definition is_update_call (e : Event) : bool :=
  match e with
  | CallUpdate _ _ _ => true
  | _ => false
  end.

Definition is_composition_call (e : Event) : bool :=
  match e with
  | CallCompositionUpdate _ _ => true
  | _ => false
  end.

(** Calls that reach the Change Pipeline. *)
Definition is_change_call (e : Event) : bool :=
  match e with
  | CallInsertText _ | CallDeleteContents => true
  | _ => false
  end.

(** Event [e1] occurs strictly before event [e2] in a trace. *)
Definition occurs_before (e1 e2 : Event) (trace : list Event) : Prop :=
  exists i j : nat, (i < j)%nat /\ trace !! i = Some e1 /\ trace !! j = Some e2.

Section Vocabulary.

Context {D : Type} `{!Document D}.

(** The document as [emitCompositionUpdate] reads it, after queued
    formatting has been flushed by an empty [insertText]. *)
Definition flushed (d : D) : D :=
  if change_hasCacheFormatting d then change_insertText [] d else d.

(** What the flush at the start of [emitCompositionUpdate] leaves in the
    trace. *)
Definition flush_events (d : D) : list Event :=
  if change_hasCacheFormatting d then [CallInsertText []] else [].

(** The parameters [emitCompositionUpdate] builds for a Text node. *)
Definition composition_params (nodeText : JSString) (offset : Z) (text : JSString)
    : CompositionUpdateParams :=
  {| chars := segmentation nodeText offset text;
     params_text := text;
     params_offset := offset |}.

(** The two halves of [emitUpdate], named for the proofs: the loop over the
    children, and what is done for the node itself. *)
Definition forEach_emitUpdate (children : list Node) (ops : list Op) : M D unit :=
  fold_right (fun child rest =>
                emitUpdate child (ops_for (getKey child) ops) ;; rest)
    skip children.

Definition notify_node (node : Node) (ops : list Op) : M D unit :=
  let key := getKey node in
  callback ← gets (fun ed => updateMap ed !! key);
  match callback with
  | Some cb => emit (CallUpdate cb node ops)
  | None => skip
  end ;;
  callback ← gets (fun ed => updateMap ed !! "*");
  match callback with
  | Some cb => emit (CallUpdate cb node ops)
  | None => skip
  end ;;
  info ← gets _compositionInfo;
  match info with
  | Some i => if String.eqb (info_key i) key
              then emitCompositionUpdate (info_text i)
              else skip
  | None => skip
  end.

(** Signals that can arrive between composition start and composition end
    and reach the Change Pipeline through the Editor itself. *)
Definition composing_signal (s : Signal) : bool :=
  match s with
  | EVENT_VALUE_CHANGE _ | EVENT_NODE_UPDATE _ _ => true
  | _ => false
  end.

(** A visit whose operations all carry the key of the visited node. *)
Definition only_own_ops (v : Node * list Op) : Prop :=
  Forall (fun op => op_key op = getKey (fst v)) (snd v).

(** A Change Pipeline call that inserts no text of the user's. *)
Definition inserts_no_text (e : Event) : Prop :=
  forall t : JSString, e = CallInsertText t -> t = [].

End Vocabulary.

(** Two sample plugins and a registry holding both. *)
Definition plugin_a : PluginOptions :=
  {| render := fun _ _ => rret (RView "a" []) |}.
Definition plugin_b : PluginOptions :=
  {| render := fun node next => rbind (next node) (fun r => rret (RView "b" [r])) |}.
Definition registry_ab : IPluginMap :=
  Editor_registerPlugin "b" (ArgOptions plugin_b)
    (Editor_registerPlugin "a" (ArgOptions plugin_a) ∅).

(** Sample documents and editors over them. *)
Definition doc_caf : LineDoc := mkLine "K" (js "caf") 3 3 false.
Definition doc_cafe : LineDoc := mkLine "K" (js "cafe") 3 3 false.
Definition doc_selected_pending : LineDoc := mkLine "K" (js "cafe") 1 3 true.

(** An editor after the composition-start signal. *)
Definition composing_editor (d : LineDoc) : Editor LineDoc :=
  state_of (handle EVENT_COMPOSITION_START (line_editor d)).

(** An editor with subscriber 7 on key "K", in the middle of composing an
    accented e. *)
Definition composing_subscribed_editor (d : LineDoc) : Editor LineDoc :=
  state_of ((onCompositionUpdate "K" 7%nat ;;
             handle EVENT_COMPOSITION_START ;;
             handle (EVENT_VALUE_CHANGE e_acute)) (line_editor d)).

(** An editor with update subscriber 1 and composition subscriber 2 on "K". *)
Definition subscribed_editor (d : LineDoc) : Editor LineDoc :=
  state_of ((onUpdate "K" 1%nat ;; onCompositionUpdate "K" 2%nat) (line_editor d)).

(** A paragraph with two text children, and one operation for each child. *)
Definition sample_tree : Node :=
  Element "r" "paragraph" [Text "a" "text" (js "x"); Text "b" "text" (js "y")].
Definition sample_ops : list Op := [mkOp "a" 0; mkOp "b" 1].

(** An editor with update subscriber 1 on "r" and 2 on "a". *)
Definition tree_editor : Editor LineDoc :=
  state_of ((onUpdate "r" 1%nat ;; onUpdate "a" 2%nat) (line_editor doc_caf)).

(** ** Further vocabulary *)

(** The function [renderPlugin] hands to a render function as [next], for
    the children rendered with the given remaining depth. *)
Definition next_children (policy : LogPolicy) (fuel : nat) (pluginMap : IPluginMap)
    : Node -> RenderM Rendered :=
  fun renderNode =>
    if isElement renderNode then
      let children := getChildren renderNode in
      rbind (rmap (fun child => renderPlugin policy fuel pluginMap child) children)
        (fun rs => rret (RArray rs))
    else rret RUndefined.

(** The text of the chunks of a segmentation that are not the composing
    one, joined in order. *)
Definition text_of_chunks (cs : list Char) : JSString :=
  flat_map char_text
    (List.filter (fun c => String.eqb (char_type c) "text") cs).

(** The keys of a subtree. *)
Definition keys_of (node : Node) : list NodeKey :=
  map getKey (postorder node).

(** An editor state in which the key under composition, if any, is not one
    of the given keys. *)
Definition not_composing_in {D : Type} (ed : Editor D) (keys : list NodeKey) : Prop :=
  match _compositionInfo ed with
  | Some i => ~ In (info_key i) keys
  | None => True
  end.

(** ** A tree document with a caret

    Modelled from the spec: a second instance of the collaborators, for
    documents that are trees (sections 3, 4.1 and 4.3).  The selection is a
    caret or is absent, so it is always collapsed and there is nothing for
    [deleteContents] to erase.  [insertText] needs the caret to be in a Text
    node; otherwise its precondition fails and the document is unchanged. *)

Fixpoint find_node (key : NodeKey) (node : Node) : option Node :=
  if String.eqb (getKey node) key then Some node
  else match node with
       | Element _ _ children =>
           (fix go (cs : list Node) : option Node :=
              match cs with
              | [] => None
              | c :: cs' =>
                  match find_node key c with
                  | Some n => Some n
                  | None => go cs'
                  end
              end) children
       | Text _ _ _ => None
       end.

Fixpoint update_text (key : NodeKey) (f : JSString -> JSString) (node : Node) : Node :=
  match node with
  | Element k t children => Element k t (map (update_text key f) children)
  | Text k t s => if String.eqb k key then Text k t (f s) else Text k t s
  end.

Record TreeDoc : Type := mkTree {
  tree_root : Node;
  tree_caret : option Point;
  tree_pending : bool
}.

Definition tree_insertText (text : JSString) (d : TreeDoc) : TreeDoc :=
  match tree_caret d with
  | Some p =>
      match find_node (point_key p) (tree_root d) with
      | Some (Text _ _ _) =>
          {| tree_root :=
               update_text (point_key p)
                 (fun s => substring s 0 (Some (point_offset p))
                           ++ text ++ substring s (point_offset p) None)
                 (tree_root d);
             tree_caret :=
               Some (mkPoint (point_key p) (point_offset p + js_length text));
             tree_pending := false |}
      | _ => d
      end
  | None => d
  end.

#[global] Instance TreeDoc_Document : Document TreeDoc := {
  change_hasCacheFormatting := tree_pending;
  change_insertText := tree_insertText;
  change_deleteContents := fun d => d;
  change_getRange := fun d =>
    match tree_caret d with
    | Some p => Some {| anchor := p; focus := p |}
    | None => None
    end;
  selection_isCollapsed := fun _ => true;
  selection_destroy := fun d => d;
  model_getNode := fun d key => find_node key (tree_root d);
  model_destroy := fun d => d
}.

(** A paragraph holding a text and an image, without selection and with
    the caret on the image element. *)
Definition sample_block : Node :=
  Element "p" "paragraph"
    [Text "t" "text" (js "ab"); Element "i" "image" []].
Definition tree_no_selection : TreeDoc := mkTree sample_block None false.
Definition tree_caret_on_image : TreeDoc :=
  mkTree sample_block (Some (mkPoint "i" 0)) false.
Definition tree_caret_on_missing : TreeDoc :=
  mkTree sample_block (Some (mkPoint "gone" 0)) false.

(** A section with a paragraph with a text: three levels. *)
Definition sample_nested : Node :=
  Element "s" "section" [Element "p" "paragraph" [Text "t" "text" (js "ab")]].

(** An editor with only a wildcard update subscriber. *)
Definition wildcard_editor : Editor LineDoc :=
  state_of (onUpdate "*" 9%nat (line_editor doc_caf)).

(** An editor whose cache holds a segmentation for "K" and which has no
    subscriber. *)
Definition cached_editor : Editor LineDoc :=
  state_of (emitCompositionUpdate e_acute (line_editor doc_cafe)).

(** ** The align plugin (packages/plugins/align/src/interfaces/align.ts) *)

(** The values [isAlign] can be asked about.  An object is the list of its
    own properties. *)
#[warnings="-register-all"]
Inductive JSValue : Type :=
| VUndefined
| VNull
| VBool (b : bool)
| VNumber (z : Z)
| VString (s : string)
| VObject (props : list (string * JSValue)).

Definition AlignValue : list (string * string) :=
  [("Left", "left"); ("Center", "center"); ("Right", "right");
   ("Justify", "justify")].

(** [AlignKeys]: the values of [AlignValue]. *)
Definition AlignKeys : list string := map snd AlignValue.

Fixpoint has_own_property (props : list (string * JSValue)) (name : string) : bool :=
  match props with
  | [] => false
  | (k, _) :: props' => if String.eqb k name then true else has_own_property props' name
  end.

(** The [in] operator: own or inherited property of an object; on anything
    else it throws a TypeError, given here as [None].  [inherited] tells the
    names found on the prototype chain. *)
Definition js_in (inherited : string -> bool) (name : string) (value : JSValue)
    : option bool :=
  match value with
  | VObject props => Some (has_own_property props name || inherited name)
  | _ => None
  end.

(** [Align.isAlign].  [Element.isElement] and [ALIGN_ATTR_KEY] come from
    other modules and are parameters; [&&] evaluates its right operand only
    when the left one is true. *)
Definition isAlign (Element_isElement : JSValue -> bool) (ALIGN_ATTR_KEY : string)
    (inherited : string -> bool) (value : JSValue) : option bool :=
  if Element_isElement value
  then js_in inherited ALIGN_ATTR_KEY value
  else Some false.

(** A sample [isElement]: an object with a [children] property. *)
Definition sample_isElement (v : JSValue) : bool :=
  match v with
  | VObject props => has_own_property props "children"
  | _ => false
  end.

(** * Theorems *)

(** ** Plugin registry *)

Lemma includes_spec (l : list string) (name : string) :
  includes l name = true <-> name ∈ l.
Proof.
  induction l as [|x l IH]; simpl.
  - split; [discriminate | intros H; inversion H].
  - destruct (String.eqb_spec x name) as [->|Hne].
    + split; [intros _; constructor | reflexivity].
    + rewrite IH. split.
      * intros H. by constructor.
      * intros H. inversion H; subst; [congruence | done].
Qed.

(** With an [enabledPlugins] list, the instance map holds exactly the
    globally registered plugins named in the list. *)
Lemma constructor_enabled_lookup (g : IPluginMap) (names : list string)
    (disabled : option (list string)) (k : string) :
  constructor_plugins g (Some (mkEditorOptions (Some names) disabled)) !! k
  = if includes names k then g !! k else None.
Proof.
  unfold constructor_plugins; simpl.
  assert (Hgen : forall acc : IPluginMap,
    (forall j v, acc !! j = Some v -> g !! j = Some v) ->
    fold_left (fun pluginMap name =>
                 match g !! name with
                 | Some pluginOptions =>
                     registerPlugin name (ArgOptions pluginOptions) pluginMap
                 | None => pluginMap
                 end) names acc !! k
    = if includes names k then g !! k else acc !! k).
  { induction names as [|x names IH]; intros acc Hacc; simpl; [done|].
    destruct (g !! x) as [p|] eqn:Hx.
    - rewrite IH.
      + destruct (String.eqb_spec x k) as [->|Hne].
        * destruct (includes names k); [done|].
          unfold registerPlugin; simpl. by rewrite lookup_insert_eq.
        * destruct (includes names k); [done|].
          unfold registerPlugin; simpl. by rewrite lookup_insert_ne.
      + intros j v. unfold registerPlugin; simpl.
        destruct (decide (x = j)) as [->|Hne].
        * rewrite lookup_insert_eq. congruence.
        * rewrite lookup_insert_ne by done. apply Hacc.
    - rewrite IH by done.
      destruct (String.eqb_spec x k) as [->|Hne]; [|done].
      destruct (includes names k); [done|].
      destruct (acc !! k) as [v|] eqn:Hk; [|done].
      apply Hacc in Hk. congruence. }
  rewrite Hgen.
  - destruct (includes names k); [done | apply lookup_empty].
  - intros j v. by rewrite lookup_empty.
Qed.

(** With only a [disabledPlugins] list, the loop at lines 69 to 73 registers
    a plugin when its name IS in the list. *)
Lemma constructor_disabled_lookup (g : IPluginMap) (names : list string)
    (k : string) :
  constructor_plugins g (Some (mkEditorOptions None (Some names))) !! k
  = if includes names k then g !! k else None.
Proof.
  unfold constructor_plugins; simpl.
  apply (map_fold_weak_ind
           (fun (r m : IPluginMap) =>
              r !! k = if includes names k then m !! k else None)).
  - destruct (includes names k); by rewrite lookup_empty.
  - intros i x m r Hi IH. unfold registerPlugin; simpl.
    destruct (decide (i = k)) as [->|Hne].
    + destruct (includes names k) eqn:Hinc.
      * by rewrite !lookup_insert_eq.
      * exact IH.
    + destruct (includes names i).
      * rewrite lookup_insert_ne by done. rewrite IH.
        by rewrite lookup_insert_ne.
      * rewrite IH. by rewrite lookup_insert_ne.
Qed.

(** Without options, or with neither list, every global plugin is taken. *)
Lemma constructor_default (g : IPluginMap) :
  constructor_plugins g None = g
  /\ constructor_plugins g (Some (mkEditorOptions None None)) = g.
Proof.
  assert (H : map_fold (fun name plugin (pluginMap : IPluginMap) =>
                          registerPlugin name (ArgOptions plugin) pluginMap) ∅ g = g).
  { apply (map_fold_weak_ind (fun (r m : IPluginMap) => r = m)); [done|].
    intros i x m r _ ->. done. }
  split; unfold constructor_plugins; simpl; exact H.
Qed.

(** C3.  With the registry holding plugins "a" and "b" and the options
    [{disabledPlugins: ["a"]}], the constructed instance map holds "a", the
    plugin that was to be disabled, and lacks "b": the test at line 70
    registers the names that the list includes. *)
Theorem constructor_disabledPlugins_keeps_the_listed :
  let options := Some {| enabledPlugins := None; disabledPlugins := Some ["a"] |} in
  constructor_plugins registry_ab options !! "a" = Some plugin_a
  /\ constructor_plugins registry_ab options !! "b" = None
  /\ constructor_plugins registry_ab
       (Some {| enabledPlugins := None; disabledPlugins := Some [] |}) = ∅.
Proof.
  cbv zeta. split; [|split].
  - rewrite constructor_disabled_lookup. reflexivity.
  - rewrite constructor_disabled_lookup. reflexivity.
  - apply map_eq. intros k. rewrite constructor_disabled_lookup. simpl.
    by rewrite lookup_empty.
Qed.

(** C10.  Registering a bare render function [f] stores the same entry as
    registering the options object [{render: f}], through the static
    [Editor.registerPlugin] and through the instance [registerPlugin]; an
    editor constructed from either registry, and every later [renderPlugin],
    behave the same. *)
Theorem registerPlugin_function_same_as_options (type : string) (f : PluginRender) :
  (forall g : IPluginMap,
     Editor_registerPlugin type (ArgFunction f) g
     = Editor_registerPlugin type (ArgOptions {| render := f |}) g)
  /\ (forall pm : IPluginMap,
        registerPlugin type (ArgFunction f) pm
        = registerPlugin type (ArgOptions {| render := f |}) pm)
  /\ (forall pm : IPluginMap,
        registerPlugin type (ArgFunction f) pm !! type = Some {| render := f |}
        /\ Editor_registerPlugin type (ArgFunction f) pm !! type
           = Some {| render := f |})
  /\ (forall (g : IPluginMap) options,
        constructor_plugins (Editor_registerPlugin type (ArgFunction f) g) options
        = constructor_plugins
            (Editor_registerPlugin type (ArgOptions {| render := f |}) g) options)
  /\ (forall policy fuel (pm : IPluginMap) node,
        renderPlugin policy fuel (registerPlugin type (ArgFunction f) pm) node
        = renderPlugin policy fuel
            (registerPlugin type (ArgOptions {| render := f |}) pm) node).
Proof.
  split; [reflexivity|]. split; [reflexivity|].
  split; [|split; reflexivity].
  intros pm. split.
  - unfold registerPlugin; simpl. apply lookup_insert_eq.
  - unfold Editor_registerPlugin; simpl. apply lookup_insert_eq.
Qed.

(** ** Rendering *)

(** C1, as amended.  For a node whose type tag has no entry in the plugin
    map, [renderPlugin] reports one plugin-not-found diagnostic for that tag
    and then completes by throwing, whichever way [Log.pluginNotFound]
    reports; it returns no render result. *)
Theorem renderPlugin_missing_plugin_reports_then_throws
    (policy : LogPolicy) (fuel : nat) (pm : IPluginMap) (node : Node) :
  pm !! getType node = None ->
  (exists e, renderPlugin policy (S fuel) pm node
             = ([DiagPluginNotFound (getType node)], Throw e))
  /\ ~ returns_result (renderPlugin policy (S fuel) pm node).
Proof.
  intros Hnone.
  assert (H : exists e, renderPlugin policy (S fuel) pm node
                        = ([DiagPluginNotFound (getType node)], Throw e)).
  { simpl. rewrite Hnone. destruct policy; simpl; eauto. }
  split; [exact H|].
  destruct H as [e He]. rewrite He. intros [r Hr]. discriminate Hr.
Qed.

Lemma renderPlugin_missing_plugin_witness :
  (∅ : IPluginMap) !! getType (Text "k1" "paragraph" (js "hi")) = None
  /\ (exists e, renderPlugin LogReturns 1 ∅ (Text "k1" "paragraph" (js "hi"))
                = ([DiagPluginNotFound "paragraph"], Throw e)).
Proof.
  split; [reflexivity|].
  apply (renderPlugin_missing_plugin_reports_then_throws LogReturns 0 ∅
           (Text "k1" "paragraph" (js "hi"))).
  reflexivity.
Defined.

(** C1 as stated fails: on a Text node of type "paragraph" with an empty
    plugin map, [renderPlugin] throws under both reporting policies and
    yields no render result; a parent whose plugin renders its children
    through [next] fails with it. *)
Lemma renderPlugin_missing_plugin_does_not_return :
  renderPlugin LogReturns 1 ∅ (Text "k1" "paragraph" (js "hi"))
    = ([DiagPluginNotFound "paragraph"], Throw TypeErrorUndefinedRender)
  /\ renderPlugin LogThrows 1 ∅ (Text "k1" "paragraph" (js "hi"))
    = ([DiagPluginNotFound "paragraph"], Throw (PluginNotFoundError "paragraph"))
  /\ ~ returns_result (renderPlugin LogReturns 1 ∅ (Text "k1" "paragraph" (js "hi")))
  /\ ~ returns_result (renderPlugin LogThrows 1 ∅ (Text "k1" "paragraph" (js "hi")))
  /\ renderPlugin LogReturns 2 registry_ab
       (Element "k0" "b" [Text "k1" "paragraph" (js "hi")])
     = ([DiagPluginNotFound "paragraph"], Throw TypeErrorUndefinedRender).
Proof.
  repeat split; try reflexivity; intros [r Hr]; discriminate Hr.
Qed.

(** ** Strings *)

Lemma substring_prefix (s : JSString) (o : Z) :
  0 <= o <= js_length s ->
  substring s 0 (Some o) = take (Z.to_nat o) s.
Proof.
  intros Ho. unfold substring, clamp.
  replace (Z.max 0 (Z.min 0 (js_length s))) with 0 by lia.
  replace (Z.max 0 (Z.min o (js_length s))) with o by lia.
  replace (Z.min 0 o) with 0 by lia.
  replace (Z.max 0 o - 0) with o by lia.
  reflexivity.
Qed.

Lemma substring_suffix (s : JSString) (o : Z) :
  0 <= o <= js_length s ->
  substring s o None = drop (Z.to_nat o) s.
Proof.
  intros Ho. unfold substring, clamp.
  replace (Z.max 0 (Z.min o (js_length s))) with o by lia.
  replace (Z.min o (js_length s)) with o by lia.
  replace (Z.max o (js_length s)) with (js_length s) by lia.
  apply take_ge. rewrite length_drop. unfold js_length in *. lia.
Qed.

(** The chunks for an offset inside the buffer: prefix, composing text, and
    the suffix unless the offset is at the end. *)
Lemma segmentation_in_range (s : JSString) (o : Z) (t : JSString) :
  0 <= o <= js_length s ->
  segmentation s o t
  = [ {| char_type := "text"; char_text := take (Z.to_nat o) s |};
      {| char_type := "composition"; char_text := t |} ]
    ++ (if decide (o = js_length s) then []
        else [ {| char_type := "text"; char_text := drop (Z.to_nat o) s |} ]).
Proof.
  intros Ho. unfold segmentation.
  rewrite substring_prefix by done. rewrite substring_suffix by done.
  destruct (Z.ltb_spec o (js_length s)); destruct (decide (o = js_length s));
    simpl; try reflexivity; lia.
Qed.

(** ** Subscription maps *)

Lemma filter_key_absent {V : Type} (l : list (NodeKey * V)) (key : NodeKey) :
  key ∉ l.*1 ->
  List.filter (fun kv => String.eqb (fst kv) key) l = [].
Proof.
  induction l as [|[k v] l IH]; intros Hnin; [reflexivity|].
  rewrite fmap_cons in Hnin. apply not_elem_of_cons in Hnin as [Hne Hnin].
  cbn [List.filter fst]. simpl in Hne.
  destruct (String.eqb_spec k key) as [->|_]; [congruence | by apply IH].
Qed.

Lemma filter_key_present {V : Type} (l : list (NodeKey * V)) (key : NodeKey) :
  NoDup (l.*1) -> key ∈ l.*1 ->
  length (List.filter (fun kv => String.eqb (fst kv) key) l) = 1%nat.
Proof.
  induction l as [|[k v] l IH]; intros Hnd Hin; [inversion Hin|].
  rewrite fmap_cons in Hnd, Hin. apply NoDup_cons in Hnd as [Hk Hnd].
  simpl in Hk, Hin. cbn [List.filter fst].
  destruct (String.eqb_spec k key) as [->|Hne].
  - rewrite filter_key_absent by done. reflexivity.
  - apply IH; [done|]. apply elem_of_cons in Hin as [->|Hin]; [congruence | done].
Qed.

(** A subscription map holds one entry for a key it maps, none otherwise. *)
Lemma registrations_lookup {V : Type} (m : gmap NodeKey V) (key : NodeKey) :
  registrations m key = match m !! key with Some _ => 1%nat | None => 0%nat end.
Proof.
  unfold registrations.
  destruct (m !! key) as [v|] eqn:Hk.
  - apply filter_key_present; [apply NoDup_fst_map_to_list|].
    apply list_elem_of_fmap. exists (key, v).
    split; [done|]. by apply elem_of_map_to_list.
  - rewrite filter_key_absent; [done|].
    intros Hin. apply list_elem_of_fmap in Hin as [[k v] [-> Hin]].
    apply elem_of_map_to_list in Hin. simpl in Hk. congruence.
Qed.

(** ** The Editor's methods *)

(** Reduce the monadic plumbing of a method applied to a state. *)
Ltac run_monad :=
  unfold state_of, trace_of;
  cbv beta iota zeta delta
    [mbind M_bind bind gets modify emit skip ret
     with_pluginMap with_updateMap with_compositionUpdateMap
     with_isComposition with_compositionInfo with_cache with_doc];
  cbn [fst snd app pluginMap updateMap compositionUpdateMap _isComposition
       _compositionInfo _cacheCompositionUpdate doc].

Ltac run_editor :=
  unfold handle, on_composition_end, on_composition_start, on_value_change,
    destroy, onUpdate, offUpdate, onCompositionUpdate, offCompositionUpdate,
    emitCompositionUpdate, isComposition,
    call_insertText, call_deleteContents, call_modelDestroy,
    call_selectionDestroy, set_isComposition, set_compositionInfo,
    updateMap_set, updateMap_delete, updateMap_clear, pluginMap_clear,
    compositionUpdateMap_set, compositionUpdateMap_delete, cache_set,
    cache_delete;
  run_monad.

Section EditorTheorems.

Context {D : Type} `{!Document D}.

Implicit Types (ed : Editor D) (key : NodeKey) (text data : JSString).

(** What [destroy] does to every editor. *)
Lemma destroy_spec ed :
  let r := destroy ed in
  updateMap (state_of r) = ∅
  /\ pluginMap (state_of r) = ∅
  /\ compositionUpdateMap (state_of r) = compositionUpdateMap ed
  /\ _cacheCompositionUpdate (state_of r) = _cacheCompositionUpdate ed
  /\ doc (state_of r) = selection_destroy (model_destroy (doc ed))
  /\ trace_of r
     = [UpdateMapClear; PluginMapClear; CallModelDestroy; CallSelectionDestroy].
Proof. run_editor. repeat split. Qed.

(** C9.  A key has at most one update callback and at most one
    composition-update callback in any editor state; [onUpdate] and
    [onCompositionUpdate] on a key that is already registered replace the
    callback, leaving the map as if only the later call had been made; one
    [offUpdate] or [offCompositionUpdate] leaves no registration. *)
Theorem one_callback_per_key ed key (cb1 cb2 : nat) :
  (registrations (updateMap ed) key <= 1)%nat
  /\ (registrations (compositionUpdateMap ed) key <= 1)%nat
  /\ (let ed2 := state_of ((onUpdate key cb1 ;; onUpdate key cb2) ed) in
      updateMap ed2 = updateMap (state_of (onUpdate key cb2 ed))
      /\ updateMap ed2 !! key = Some cb2
      /\ registrations (updateMap ed2) key = 1%nat
      /\ updateMap (state_of (offUpdate key ed2)) !! key = None
      /\ registrations (updateMap (state_of (offUpdate key ed2))) key = 0%nat)
  /\ (let ed2 := state_of ((onCompositionUpdate key cb1 ;;
                            onCompositionUpdate key cb2) ed) in
      compositionUpdateMap ed2
        = compositionUpdateMap (state_of (onCompositionUpdate key cb2 ed))
      /\ compositionUpdateMap ed2 !! key = Some cb2
      /\ registrations (compositionUpdateMap ed2) key = 1%nat
      /\ compositionUpdateMap (state_of (offCompositionUpdate key ed2)) !! key = None
      /\ registrations
           (compositionUpdateMap (state_of (offCompositionUpdate key ed2))) key
         = 0%nat).
Proof.
  split; [rewrite registrations_lookup; destruct (_ !! _); lia|].
  split; [rewrite registrations_lookup; destruct (_ !! _); lia|].
  split.
  - run_editor. rewrite insert_insert_eq.
    rewrite !registrations_lookup, !lookup_insert_eq, !lookup_delete_eq.
    repeat split.
  - run_editor.
    destruct (_cacheCompositionUpdate ed !! key) as [c|] eqn:Hc;
      do 3 (run_editor; rewrite ?Hc); rewrite insert_insert_eq;
      rewrite !registrations_lookup, !lookup_insert_eq, !lookup_delete_eq;
      repeat split.
Qed.

(** C5, as amended.  On a composition-end signal with a subscriber for the
    composing key, the handler first resets [isComposition], then notifies
    the subscriber with null, then clears the composing-info record, then
    calls [insertText] with the committed text, and does nothing else;
    afterwards the composition state is idle and the document is the one
    [insertText] produced. *)
Theorem composition_end_order ed data (i : CompositionInfo) (cb : nat) :
  _compositionInfo ed = Some i ->
  compositionUpdateMap ed !! info_key i = Some cb ->
  let r := handle (EVENT_COMPOSITION_END data) ed in
  trace_of r = [SetIsComposition false; CallCompositionUpdate cb None;
                SetCompositionInfo None; CallInsertText data]
  /\ _isComposition (state_of r) = false
  /\ _compositionInfo (state_of r) = None
  /\ doc (state_of r) = change_insertText data (doc ed).
Proof.
  intros Hinfo Hcb. run_editor. rewrite Hinfo. run_editor. rewrite Hcb.
  run_editor. repeat split.
Qed.

(** Without a subscriber, or before any composition update, composition end
    notifies nobody. *)
Lemma composition_end_without_subscriber ed data :
  match _compositionInfo ed with
  | Some i => compositionUpdateMap ed !! info_key i = None
  | None => True
  end ->
  trace_of (handle (EVENT_COMPOSITION_END data) ed)
  = [SetIsComposition false; SetCompositionInfo None; CallInsertText data].
Proof.
  intros H. run_editor. destruct (_compositionInfo ed) as [i|]; run_editor.
  - rewrite H. reflexivity.
  - reflexivity.
Qed.

(** [emitCompositionUpdate] on a Text anchor, with no subscriber. *)
Lemma emitCompositionUpdate_unsubscribed ed text (range : Range)
    (k : NodeKey) (ty : string) (s : JSString) :
  change_getRange (flushed (doc ed)) = Some range ->
  model_getNode (flushed (doc ed)) (point_key (anchor range)) = Some (Text k ty s) ->
  compositionUpdateMap ed !! point_key (anchor range) = None ->
  let key := point_key (anchor range) in
  let params := composition_params s (point_offset (anchor range)) text in
  let r := emitCompositionUpdate text ed in
  trace_of r = flush_events (doc ed)
               ++ [SetCompositionInfo (Some {| info_key := key; info_text := text |});
                   CacheSet key params]
  /\ _cacheCompositionUpdate (state_of r) = <[key := params]> (_cacheCompositionUpdate ed)
  /\ compositionUpdateMap (state_of r) = compositionUpdateMap ed
  /\ _compositionInfo (state_of r) = Some {| info_key := key; info_text := text |}.
Proof.
  unfold flushed, flush_events. intros Hrange Hnode Hcb.
  run_editor. destruct (change_hasCacheFormatting (doc ed));
    run_editor; rewrite Hrange; run_editor; rewrite Hnode; run_editor;
    rewrite Hcb; run_editor; repeat split.
Qed.

(** [emitCompositionUpdate] on a Text anchor, with a subscriber. *)
Lemma emitCompositionUpdate_subscribed ed text (range : Range)
    (k : NodeKey) (ty : string) (s : JSString) (cb : nat) :
  change_getRange (flushed (doc ed)) = Some range ->
  model_getNode (flushed (doc ed)) (point_key (anchor range)) = Some (Text k ty s) ->
  compositionUpdateMap ed !! point_key (anchor range) = Some cb ->
  let key := point_key (anchor range) in
  let params := composition_params s (point_offset (anchor range)) text in
  let r := emitCompositionUpdate text ed in
  trace_of r = flush_events (doc ed)
               ++ [SetCompositionInfo (Some {| info_key := key; info_text := text |});
                   CacheDelete key;
                   CallCompositionUpdate cb (Some params)]
  /\ _cacheCompositionUpdate (state_of r) = delete key (_cacheCompositionUpdate ed)
  /\ compositionUpdateMap (state_of r) = compositionUpdateMap ed
  /\ _compositionInfo (state_of r) = Some {| info_key := key; info_text := text |}.
Proof.
  unfold flushed, flush_events. intros Hrange Hnode Hcb.
  run_editor. destruct (change_hasCacheFormatting (doc ed));
    run_editor; rewrite Hrange; run_editor; rewrite Hnode; run_editor;
    rewrite Hcb; run_editor; repeat split.
Qed.

(** C7.  A composition update computed while the composing key has no
    subscriber is cached under that key and no subscriber is invoked; an
    [onCompositionUpdate] for that key then invokes the new callback with the
    cached parameters and registers it afterwards.  When a subscriber is
    registered at emission time, the cache entry of the key is removed and
    the parameters are delivered to it. *)
Theorem composition_update_cached_then_replayed ed text (range : Range)
    (k : NodeKey) (ty : string) (s : JSString) :
  change_getRange (flushed (doc ed)) = Some range ->
  model_getNode (flushed (doc ed)) (point_key (anchor range)) = Some (Text k ty s) ->
  let key := point_key (anchor range) in
  let params := composition_params s (point_offset (anchor range)) text in
  let r := emitCompositionUpdate text ed in
  (compositionUpdateMap ed !! key = None ->
     _cacheCompositionUpdate (state_of r) !! key = Some params
     /\ Forall (fun e => is_composition_call e = false) (trace_of r)
     /\ forall cb : nat,
          let r2 := onCompositionUpdate key cb (state_of r) in
          trace_of r2 = [CallCompositionUpdate cb (Some params);
                         CompositionUpdateMapSet key cb]
          /\ compositionUpdateMap (state_of r2) !! key = Some cb)
  /\ (forall cb0 : nat, compositionUpdateMap ed !! key = Some cb0 ->
        trace_of r
        = flush_events (doc ed)
          ++ [SetCompositionInfo (Some {| info_key := key; info_text := text |});
              CacheDelete key;
              CallCompositionUpdate cb0 (Some params)]
        /\ _cacheCompositionUpdate (state_of r) !! key = None)
  /\ (forall (ed' : Editor D) (c : CompositionUpdateParams) (cb : nat),
        _cacheCompositionUpdate ed' !! key = Some c ->
        trace_of (onCompositionUpdate key cb ed')
        = [CallCompositionUpdate cb (Some c); CompositionUpdateMapSet key cb]).
Proof.
  intros Hrange Hnode key params r. split; [|split].
  - intros Hcb.
    destruct (emitCompositionUpdate_unsubscribed ed text range k ty s
                Hrange Hnode Hcb) as (Htr & Hcache & Hmap & _).
    fold key params r in Htr, Hcache, Hmap.
    assert (Hlook : _cacheCompositionUpdate (state_of r) !! key = Some params)
      by (rewrite Hcache; apply lookup_insert_eq).
    split; [exact Hlook|]. split.
    + rewrite Htr. unfold flush_events.
      destruct (change_hasCacheFormatting (doc ed)); repeat constructor.
    + intros cb. revert Hlook. generalize (state_of r). intros ed1 Hlook.
      run_editor. rewrite Hlook. run_editor.
      split; [reflexivity | apply lookup_insert_eq].
  - intros cb0 Hcb.
    destruct (emitCompositionUpdate_subscribed ed text range k ty s cb0
                Hrange Hnode Hcb) as (Htr & Hcache & _).
    fold key params r in Htr, Hcache.
    split; [exact Htr|]. rewrite Hcache. apply lookup_delete_eq.
  - intros ed' c cb Hc. run_editor. rewrite Hc. reflexivity.
Qed.

(** C4, as amended.  A composition update with composed text [text], with
    the anchor in a Text node of content [s] at an offset [o] between 0 and
    the length of [s], yields the chunks: prefix of [s] up to [o] as text,
    [text] as composition, and the rest of [s] as text unless [o] is the
    length of [s]; they are delivered to the subscriber of the key, or
    cached when there is none.  For "cafe", offset 3 and an accented e the
    chunks are "caf", the accented e, and "e". *)
Theorem composition_update_segmentation ed text (range : Range)
    (k : NodeKey) (ty : string) (s : JSString) :
  change_getRange (flushed (doc ed)) = Some range ->
  model_getNode (flushed (doc ed)) (point_key (anchor range)) = Some (Text k ty s) ->
  0 <= point_offset (anchor range) <= js_length s ->
  let key := point_key (anchor range) in
  let o := point_offset (anchor range) in
  let r := emitCompositionUpdate text ed in
  exists params : CompositionUpdateParams,
    match compositionUpdateMap ed !! key with
    | Some cb => last (trace_of r) = Some (CallCompositionUpdate cb (Some params))
    | None => _cacheCompositionUpdate (state_of r) !! key = Some params
    end
    /\ params_text params = text
    /\ params_offset params = o
    /\ chars params
       = [ {| char_type := "text"; char_text := take (Z.to_nat o) s |};
           {| char_type := "composition"; char_text := text |} ]
         ++ (if decide (o = js_length s) then []
             else [ {| char_type := "text"; char_text := drop (Z.to_nat o) s |} ])
    /\ (s = js "cafe" -> o = 3 -> text = e_acute ->
        chars params
        = [ {| char_type := "text"; char_text := js "caf" |};
            {| char_type := "composition"; char_text := e_acute |};
            {| char_type := "text"; char_text := js "e" |} ]).
Proof.
  intros Hrange Hnode Ho key o r.
  exists (composition_params s o text).
  split; [|split; [reflexivity|split; [reflexivity|split]]].
  - destruct (compositionUpdateMap ed !! key) as [cb|] eqn:Hcb.
    + destruct (emitCompositionUpdate_subscribed ed text range k ty s cb
                  Hrange Hnode Hcb) as (Htr & _).
      fold key o r in Htr. rewrite Htr.
      change [SetCompositionInfo (Some {| info_key := key; info_text := text |});
        CacheDelete key; CallCompositionUpdate cb (Some (composition_params s o text))]
        with ([SetCompositionInfo (Some {| info_key := key; info_text := text |});
               CacheDelete key]
              ++ [CallCompositionUpdate cb (Some (composition_params s o text))]).
      rewrite app_assoc. apply last_snoc.
    + destruct (emitCompositionUpdate_unsubscribed ed text range k ty s
                  Hrange Hnode Hcb) as (_ & Hcache & _).
      fold key o r in Hcache. rewrite Hcache. apply lookup_insert_eq.
  - cbn [chars composition_params]. by apply segmentation_in_range.
  - intros -> Ho3 ->. cbn [chars composition_params]. rewrite Ho3. reflexivity.
Qed.

(** ** The fan-out of node updates *)

Lemma bind_ext_l {A B : Type} (m1 m2 : M D A) (k : A -> M D B) ed :
  m1 ed = m2 ed -> (m1 ≫= k) ed = (m2 ≫= k) ed.
Proof.
  intros H. cbv beta iota zeta delta [mbind M_bind bind]. by rewrite H.
Qed.

Lemma bind_ext_r {A B : Type} (m : M D A) (k1 k2 : A -> M D B) ed :
  (forall a ed', k1 a ed' = k2 a ed') -> (m ≫= k1) ed = (m ≫= k2) ed.
Proof.
  intros H. cbv beta iota zeta delta [mbind M_bind bind].
  destruct (m ed) as [[a ed1] t1]. by rewrite H.
Qed.

Lemma emitUpdate_unfold (node : Node) (ops : list Op) ed :
  emitUpdate node ops ed
  = (forEach_emitUpdate (getChildren node) ops ;; notify_node node ops) ed.
Proof.
  destruct node as [k t cs|k t s]; [|reflexivity].
  cbn [emitUpdate getChildren]. fold (notify_node (Element k t cs) ops).
  apply bind_ext_l. revert ed.
  induction cs as [|c cs IH]; intros ed1; [reflexivity|].
  cbn [forEach_emitUpdate fold_right]. fold (ops_for (getKey c) ops).
  apply bind_ext_r. intros _ ed'. apply IH.
Qed.

Lemma forEach_emitUpdate_cons (c : Node) (cs : list Node) (ops : list Op) ed :
  forEach_emitUpdate (c :: cs) ops ed
  = (emitUpdate c (ops_for (getKey c) ops) ;; forEach_emitUpdate cs ops) ed.
Proof. reflexivity. Qed.

(** Running two methods in sequence. *)
Lemma bind_state {A B : Type} (m : M D A) (k : A -> M D B) ed :
  state_of ((m ≫= k) ed) = state_of (k (m ed).1.1 (state_of (m ed))).
Proof.
  cbv beta iota zeta delta [mbind M_bind bind state_of].
  destruct (m ed) as [[a ed1] t1]. cbn [fst snd].
  by destruct (k a ed1) as [[b ed2] t2].
Qed.

Lemma bind_trace {A B : Type} (m : M D A) (k : A -> M D B) ed :
  trace_of ((m ≫= k) ed)
  = trace_of (m ed) ++ trace_of (k (m ed).1.1 (state_of (m ed))).
Proof.
  cbv beta iota zeta delta [mbind M_bind bind state_of trace_of].
  destruct (m ed) as [[a ed1] t1]. cbn [fst snd].
  by destruct (k a ed1) as [[b ed2] t2].
Qed.

(** What a method leaves alone and what it may call while the Editor is in
    the middle of a fan-out: the update subscriptions and the composing flag
    are untouched, no update subscriber is invoked, and the Change Pipeline
    is reached only by the flush of pending formatting. *)
Lemma emitCompositionUpdate_frame text ed :
  let r := emitCompositionUpdate text ed in
  updateMap (state_of r) = updateMap ed
  /\ _isComposition (state_of r) = _isComposition ed
  /\ List.filter is_update_call (trace_of r) = []
  /\ List.filter is_change_call (trace_of r) = flush_events (doc ed).
Proof.
  unfold flush_events. run_editor.
  destruct (change_hasCacheFormatting (doc ed)); run_editor.
  all: match goal with
       | |- context [change_getRange ?d] =>
           destruct (change_getRange d) as [range|]
       end; run_editor; [|repeat split].
  all: match goal with
       | |- context [model_getNode ?d ?k] =>
           destruct (model_getNode d k) as [[k' t' cs'|k' t' s']|]
       end; run_editor; try (repeat split; fail).
  all: destruct (compositionUpdateMap ed !! point_key (anchor range)) as [cb|];
    run_editor; repeat split.
Qed.

Lemma Node_nested_ind (P : Node -> Prop) :
  (forall k t cs, Forall P cs -> P (Element k t cs)) ->
  (forall k t s, P (Text k t s)) ->
  forall n, P n.
Proof.
  intros Helem Htext. fix IH 1. intros [k t cs|k t s].
  - apply Helem. induction cs as [|c cs IHcs]; constructor.
    + apply IH.
    + apply IHcs.
  - apply Htext.
Qed.

Lemma visits_unfold (node : Node) (ops : list Op) :
  visits node ops
  = flat_map (fun c => visits c (ops_for (getKey c) ops)) (getChildren node)
    ++ [(node, ops)].
Proof.
  destruct node as [k t cs|k t s]; reflexivity.
Qed.

Lemma postorder_unfold (node : Node) :
  postorder node = flat_map postorder (getChildren node) ++ [node].
Proof.
  destruct node as [k t cs|k t s]; reflexivity.
Qed.

Lemma flush_only_inserts_no_text (tr : list Event) (d : D) :
  List.filter is_change_call tr = flush_events d ->
  Forall inserts_no_text tr.
Proof.
  intros Hf. apply List.Forall_forall. intros e Hin t ->.
  assert (Hin' : In (CallInsertText t) (List.filter is_change_call tr))
    by (apply List.filter_In; split; [exact Hin | reflexivity]).
  rewrite Hf in Hin'. unfold flush_events in Hin'.
  destruct (change_hasCacheFormatting d); simpl in Hin'.
  - destruct Hin' as [Heq|[]]. congruence.
  - destruct Hin'.
Qed.

Lemma notify_node_frame (node : Node) (ops : list Op) ed :
  let r := notify_node node ops ed in
  updateMap (state_of r) = updateMap ed
  /\ _isComposition (state_of r) = _isComposition ed
  /\ List.filter is_update_call (trace_of r)
     = update_calls (updateMap ed) (node, ops)
  /\ Forall inserts_no_text (trace_of r).
Proof.
  unfold notify_node, update_calls. cbn [fst snd].
  destruct (updateMap ed !! getKey node) as [cb1|] eqn:Hown;
    destruct (updateMap ed !! "*") as [cb2|] eqn:Hwild;
    destruct (_compositionInfo ed) as [i|] eqn:Hi;
    try destruct (String.eqb (info_key i) (getKey node)) eqn:Hk;
    run_monad; rewrite ?Hown; run_monad; rewrite ?Hwild; run_monad;
    rewrite ?Hi; run_monad; rewrite ?Hk; run_monad;
    try (repeat split;
         repeat (apply Forall_cons; split; [intros t Ht; discriminate Ht|]);
         constructor; fail).
  all: destruct (emitCompositionUpdate_frame (info_text i) ed) as (H1 & H2 & H3 & H4);
    unfold state_of, trace_of in H1, H2, H3, H4;
    apply flush_only_inserts_no_text in H4;
    destruct (emitCompositionUpdate (info_text i) ed) as [[u ed'] tr];
    cbn [fst snd] in *;
    cbn [List.filter is_update_call]; rewrite H3;
    (split; [exact H1|]); (split; [exact H2|]); (split; [reflexivity|]);
    repeat (apply Forall_cons; split; [intros t Ht; discriminate Ht|]);
    exact H4.
Qed.

(** The fan-out invokes, for the visits of the subtree in order, the
    subscribers of [update_calls]; it leaves the subscriptions and the
    composing flag alone and passes no text to [insertText]. *)
Lemma emitUpdate_frame (node : Node) :
  forall (ops : list Op) ed,
    let r := emitUpdate node ops ed in
    updateMap (state_of r) = updateMap ed
    /\ _isComposition (state_of r) = _isComposition ed
    /\ List.filter is_update_call (trace_of r)
       = flat_map (update_calls (updateMap ed)) (visits node ops)
    /\ Forall inserts_no_text (trace_of r).
Proof.
  induction node as [k t cs IHcs|k t s] using Node_nested_ind; intros ops ed.
  - assert (Hloop : forall ed1,
      let r := forEach_emitUpdate cs ops ed1 in
      updateMap (state_of r) = updateMap ed1
      /\ _isComposition (state_of r) = _isComposition ed1
      /\ List.filter is_update_call (trace_of r)
         = flat_map (update_calls (updateMap ed1))
             (flat_map (fun c => visits c (ops_for (getKey c) ops)) cs)
      /\ Forall inserts_no_text (trace_of r)).
    { induction cs as [|c cs IH]; intros ed1.
      - repeat split. constructor.
      - apply Forall_cons in IHcs as [Hc Hcs]. specialize (IH Hcs).
        cbv zeta. rewrite forEach_emitUpdate_cons, bind_state, bind_trace.
        destruct (Hc (ops_for (getKey c) ops) ed1) as (A1 & A2 & A3 & A4).
        cbv zeta in A1, A2, A3, A4.
        destruct (IH (state_of (emitUpdate c (ops_for (getKey c) ops) ed1)))
          as (B1 & B2 & B3 & B4).
        cbv zeta in B1, B2, B3, B4.
        rewrite B1, B2, A1, A2. split; [done|]. split; [done|]. split.
        + rewrite List.filter_app, A3, B3, A1. cbn [flat_map].
          by rewrite flat_map_app.
        + apply Forall_app. by split. }
    cbv zeta. rewrite emitUpdate_unfold, bind_state, bind_trace.
    cbn [getChildren].
    destruct (Hloop ed) as (A1 & A2 & A3 & A4). cbv zeta in A1, A2, A3, A4.
    destruct (notify_node_frame (Element k t cs) ops
                (state_of (forEach_emitUpdate cs ops ed))) as (B1 & B2 & B3 & B4).
    cbv zeta in B1, B2, B3, B4.
    rewrite B1, B2, A1, A2. split; [done|]. split; [done|]. split.
    + rewrite List.filter_app, A3, B3, A1, visits_unfold, flat_map_app.
      cbn [getChildren flat_map]. by rewrite app_nil_r.
    + apply Forall_app. by split.
  - cbv zeta. rewrite emitUpdate_unfold, bind_state, bind_trace.
    cbn [getChildren forEach_emitUpdate fold_right].
    destruct (notify_node_frame (Text k t s) ops ed) as (B1 & B2 & B3 & B4).
    cbv zeta in B1, B2, B3, B4.
    change (state_of (skip ed)) with ed.
    change (trace_of (skip ed)) with (@nil Event).
    change ((skip ed).1.1) with tt. cbn [app].
    split; [exact B1|]. split; [exact B2|]. split; [|exact B4].
    rewrite B3. cbn [visits flat_map app].
    by rewrite app_nil_r.
Qed.

Lemma ops_for_key (key : NodeKey) (ops : list Op) :
  Forall (fun op => op_key op = key) (ops_for key ops).
Proof.
  apply List.Forall_forall. intros op Hin.
  apply List.filter_In in Hin as [_ Heq]. by apply String.eqb_eq.
Qed.

Lemma visits_fst (node : Node) :
  forall ops, map fst (visits node ops) = postorder node.
Proof.
  induction node as [k t cs IHcs|k t s] using Node_nested_ind; intros ops;
    [|reflexivity].
  rewrite visits_unfold, postorder_unfold, map_app. cbn [getChildren map fst].
  f_equal. induction cs as [|c cs IH]; [reflexivity|].
  apply Forall_cons in IHcs as [Hc Hcs].
  cbn [flat_map]. rewrite map_app, Hc, (IH Hcs). reflexivity.
Qed.

Lemma visits_removelast (node : Node) (ops : list Op) :
  removelast (visits node ops)
  = flat_map (fun c => visits c (ops_for (getKey c) ops)) (getChildren node).
Proof. rewrite visits_unfold. apply removelast_last. Qed.

Lemma visits_own_ops (node : Node) :
  forall ops,
    Forall (fun op => op_key op = getKey node) ops ->
    Forall only_own_ops (visits node ops).
Proof.
  induction node as [k t cs IHcs|k t s] using Node_nested_ind; intros ops Hops.
  - rewrite visits_unfold. apply Forall_app. split; [|by repeat constructor].
    cbn [getChildren]. induction cs as [|c cs IH]; [constructor|].
    apply Forall_cons in IHcs as [Hc Hcs]. cbn [flat_map].
    apply Forall_app. split; [|by apply IH].
    apply Hc, ops_for_key.
  - by repeat constructor.
Qed.

Lemma visits_descendants_own_ops (node : Node) (ops : list Op) :
  Forall only_own_ops (removelast (visits node ops)).
Proof.
  rewrite visits_removelast.
  induction (getChildren node) as [|c cs IH]; [constructor|].
  cbn [flat_map]. apply Forall_app. split; [|exact IH].
  apply visits_own_ops, ops_for_key.
Qed.

Lemma visits_children (node : Node) (ops : list Op) (c : Node) :
  In c (getChildren node) ->
  In (c, ops_for (getKey c) ops) (visits node ops).
Proof.
  intros Hin. rewrite visits_unfold. apply in_or_app. left.
  apply in_flat_map. exists c. split; [exact Hin|].
  rewrite visits_unfold. apply in_or_app. right. by left.
Qed.

(** C8, as amended.  A node-update notification [(node, ops)] makes the
    Editor visit every node of the subtree bottom-up, descendants before the
    notified node; at each visit the subscriber of the node's key and then
    the wildcard subscriber are invoked.  The notified node is passed the
    whole list [ops], unfiltered; a child is passed the operations of its
    parent's list that carry the child's key, so every strict descendant
    receives only operations whose key matches it. *)
Theorem emitUpdate_fan_out ed (node : Node) (ops : list Op) :
  let r := emitUpdate node ops ed in
  List.filter is_update_call (trace_of r)
    = flat_map (update_calls (updateMap ed)) (visits node ops)
  /\ map fst (visits node ops) = postorder node
  /\ visits node ops = removelast (visits node ops) ++ [(node, ops)]
  /\ map fst (removelast (visits node ops)) = descendants node
  /\ Forall only_own_ops (removelast (visits node ops))
  /\ (forall c, In c (getChildren node) ->
        In (c, ops_for (getKey c) ops) (visits node ops))
  /\ (forall v (cb : nat),
        In v (visits node ops) -> updateMap ed !! "*" = Some cb ->
        In (CallUpdate cb (fst v) (snd v)) (trace_of r))
  /\ (forall v (cb : nat),
        In v (visits node ops) -> updateMap ed !! getKey (fst v) = Some cb ->
        In (CallUpdate cb (fst v) (snd v)) (trace_of r)).
Proof.
  intros r.
  destruct (emitUpdate_frame node ops ed) as (_ & _ & Hcalls & _).
  fold r in Hcalls.
  assert (Hlast : visits node ops = removelast (visits node ops) ++ [(node, ops)]).
  { rewrite visits_removelast. apply visits_unfold. }
  assert (Hin : forall v e, In v (visits node ops) ->
                  In e (update_calls (updateMap ed) v) -> In e (trace_of r)).
  { intros v e Hv He.
    assert (He' : In e (List.filter is_update_call (trace_of r))).
    { rewrite Hcalls. apply in_flat_map. eauto. }
    by apply List.filter_In in He' as [? _]. }
  split; [exact Hcalls|]. split; [apply visits_fst|]. split; [exact Hlast|].
  split.
  { unfold descendants. rewrite <- (visits_fst node ops).
    rewrite Hlast at 2. rewrite map_app. cbn [map].
    by rewrite removelast_last. }
  split; [apply visits_descendants_own_ops|].
  split; [intros c; apply visits_children|].
  split.
  - intros v cb Hv Hcb. apply (Hin v); [exact Hv|].
    unfold update_calls. rewrite Hcb. apply in_or_app. right. by left.
  - intros v cb Hv Hcb. apply (Hin v); [exact Hv|].
    unfold update_calls. rewrite Hcb. apply in_or_app. left. by left.
Qed.

(** ** Composition and the Change Pipeline *)

(** The editor a value-change handler continues with after erasing a
    non-collapsed selection. *)
Lemma value_change_while_composing ed (value : JSString) :
  _isComposition ed = true ->
  let erase := if selection_isCollapsed (doc ed) then [] else [CallDeleteContents] in
  let ed1 := if selection_isCollapsed (doc ed) then ed
             else with_doc change_deleteContents ed in
  let r := handle (EVENT_VALUE_CHANGE value) ed in
  trace_of r = erase ++ trace_of (emitCompositionUpdate value ed1)
  /\ state_of r = state_of (emitCompositionUpdate value ed1)
  /\ List.filter is_change_call (trace_of r) = erase ++ flush_events (doc ed1).
Proof.
  intros Hcomp erase ed1 r.
  assert (Htr : trace_of r = erase ++ trace_of (emitCompositionUpdate value ed1)
                /\ state_of r = state_of (emitCompositionUpdate value ed1)).
  { subst erase ed1 r.
    unfold handle, on_value_change, isComposition, call_deleteContents.
    destruct (selection_isCollapsed (doc ed)) eqn:Hcol;
      run_monad; rewrite Hcol; cbn [negb]; run_monad; rewrite Hcomp;
      match goal with
      | |- context [emitCompositionUpdate value ?e] =>
          destruct (emitCompositionUpdate value e) as [[u e'] t]
      end; split; reflexivity. }
  destruct Htr as [Htr Hst]. split; [exact Htr|]. split; [exact Hst|].
  rewrite Htr, List.filter_app.
  destruct (emitCompositionUpdate_frame value ed1) as (_ & _ & _ & Hf).
  cbv zeta in Hf. rewrite Hf. f_equal.
  subst erase. by destruct (selection_isCollapsed (doc ed)).
Qed.

Lemma composing_signal_step ed (sg : Signal) :
  _isComposition ed = true ->
  composing_signal sg = true ->
  _isComposition (state_of (handle sg ed)) = true
  /\ Forall inserts_no_text (trace_of (handle sg ed)).
Proof.
  intros Hcomp Hsig. destruct sg as [node ops|value| | | |data]; try discriminate.
  - destruct (emitUpdate_frame node ops ed) as (_ & H2 & _ & H4).
    cbv zeta in H2, H4. cbn [handle]. rewrite H2. by split.
  - destruct (value_change_while_composing ed value Hcomp) as (Htr & Hst & _).
    cbv zeta in Htr, Hst. rewrite Htr, Hst.
    set (ed1 := if selection_isCollapsed (doc ed) then ed
                else with_doc change_deleteContents ed).
    destruct (emitCompositionUpdate_frame value ed1) as (_ & H2 & _ & H4).
    cbv zeta in H2, H4. rewrite H2. split.
    + subst ed1. by destruct (selection_isCollapsed (doc ed)).
    + apply Forall_app. split.
      * destruct (selection_isCollapsed (doc ed)); repeat constructor.
        intros t Ht. discriminate Ht.
      * by eapply flush_only_inserts_no_text.
Qed.

(** C6, as amended.  While a composition is active, a value-change signal
    passes its text to [emitCompositionUpdate], not to [insertText]: over any
    run of value-change and node-update signals the Editor stays composing
    and every [insertText] it issues carries the empty string.  The Change
    Pipeline is still reached: [deleteContents] when the selection is not
    collapsed, and the empty [insertText] that flushes pending formatting.
    The committed text reaches [insertText] on the composition-end signal. *)
Theorem composing_signals_insert_no_text ed (ss : list Signal) :
  _isComposition ed = true ->
  Forall (fun sg => composing_signal sg = true) ss ->
  (let r := handle_all ss ed in
   _isComposition (state_of r) = true
   /\ Forall inserts_no_text (trace_of r))
  /\ (forall value : JSString,
        let erase := if selection_isCollapsed (doc ed) then []
                     else [CallDeleteContents] in
        let ed1 := if selection_isCollapsed (doc ed) then ed
                   else with_doc change_deleteContents ed in
        let r := handle (EVENT_VALUE_CHANGE value) ed in
        trace_of r = erase ++ trace_of (emitCompositionUpdate value ed1)
        /\ List.filter is_change_call (trace_of r) = erase ++ flush_events (doc ed1))
  /\ (forall data : JSString,
        last (trace_of (handle (EVENT_COMPOSITION_END data) ed))
        = Some (CallInsertText data)).
Proof.
  intros Hcomp Hss. split; [|split].
  - revert ed Hcomp. induction Hss as [|sg ss Hsg Hss IH]; intros ed Hcomp.
    + split; [exact Hcomp | constructor].
    + cbv zeta. cbn [handle_all]. rewrite bind_state, bind_trace.
      destruct (composing_signal_step ed sg Hcomp Hsg) as [Hc1 Ht1].
      destruct (IH (state_of (handle sg ed)) Hc1) as [Hc2 Ht2].
      split; [exact Hc2|]. apply Forall_app. by split.
  - intros value.
    destruct (value_change_while_composing ed value Hcomp) as (Htr & _ & Hf).
    by split.
  - intros data. run_editor.
    destruct (_compositionInfo ed) as [i|]; run_editor;
      [destruct (compositionUpdateMap ed !! info_key i) as [cb|]; run_editor|];
      reflexivity.
Qed.

End EditorTheorems.

(** ** The Editor on concrete documents *)

(** C2.  An editor with update subscriber 1 and composition subscriber 2 on
    key "K" is destroyed: the update map is emptied and teardown goes to the
    Node Model and the Selection Model, but the composition subscriber is
    still registered, and a composition update emitted on the destroyed
    editor still invokes it. *)
Theorem destroy_keeps_composition_subscriber :
  let r := destroy (subscribed_editor doc_caf) in
  updateMap (state_of r) = ∅
  /\ trace_of r
     = [UpdateMapClear; PluginMapClear; CallModelDestroy; CallSelectionDestroy]
  /\ compositionUpdateMap (state_of r) !! "K" = Some 2%nat
  /\ registrations (compositionUpdateMap (state_of r)) "K" = 1%nat
  /\ In (CallCompositionUpdate 2%nat
           (Some (composition_params (js "caf") 3 e_acute)))
       (trace_of (emitCompositionUpdate e_acute (state_of r))).
Proof.
  cbv zeta.
  destruct (destroy_spec (subscribed_editor doc_caf)) as (Hu & _ & Hc & _ & _ & Ht).
  cbv zeta in Hu, Hc, Ht.
  split; [exact Hu|]. split; [exact Ht|].
  assert (Hk : compositionUpdateMap (state_of (destroy (subscribed_editor doc_caf)))
               !! "K" = Some 2%nat) by (rewrite Hc; reflexivity).
  split; [exact Hk|]. split.
  - rewrite registrations_lookup, Hk. reflexivity.
  - vm_compute. right. right. left. reflexivity.
Qed.

(** C4 as stated fails in its example: for "cafe", offset 3 and an accented
    e, the offset is below the length 4, so the cached chunks are "caf", the
    accented e and the suffix "e", not the first two alone. *)
Lemma composition_update_cafe_has_suffix :
  let r := emitCompositionUpdate e_acute (line_editor doc_cafe) in
  chars <$> (_cacheCompositionUpdate (state_of r) !! "K")
    = Some [ {| char_type := "text"; char_text := js "caf" |};
             {| char_type := "composition"; char_text := e_acute |};
             {| char_type := "text"; char_text := js "e" |} ]
  /\ chars <$> (_cacheCompositionUpdate (state_of r) !! "K")
     <> Some [ {| char_type := "text"; char_text := js "caf" |};
               {| char_type := "composition"; char_text := e_acute |} ].
Proof.
  cbv zeta. split; [reflexivity|]. intros H. vm_compute in H. discriminate H.
Qed.

Lemma composition_update_segmentation_witness :
  change_getRange (flushed (doc (line_editor doc_cafe)))
    = Some (mkRange (mkPoint "K" 3) (mkPoint "K" 3))
  /\ model_getNode (flushed (doc (line_editor doc_cafe))) "K"
     = Some (Text "K" "text" (js "cafe"))
  /\ 0 <= 3 <= js_length (js "cafe")
  /\ exists params : CompositionUpdateParams,
       _cacheCompositionUpdate
         (state_of (emitCompositionUpdate e_acute (line_editor doc_cafe))) !! "K"
       = Some params
       /\ chars params
          = [ {| char_type := "text"; char_text := js "caf" |};
              {| char_type := "composition"; char_text := e_acute |};
              {| char_type := "text"; char_text := js "e" |} ].
Proof.
  assert (Hrange : change_getRange (flushed (doc (line_editor doc_cafe)))
                   = Some (mkRange (mkPoint "K" 3) (mkPoint "K" 3)))
    by reflexivity.
  assert (Hnode : model_getNode (flushed (doc (line_editor doc_cafe))) "K"
                  = Some (Text "K" "text" (js "cafe")))
    by reflexivity.
  assert (Ho : 0 <= 3 <= js_length (js "cafe"))
    by (vm_compute; split; discriminate).
  split; [exact Hrange|]. split; [exact Hnode|]. split; [exact Ho|].
  destruct (composition_update_segmentation (line_editor doc_cafe) e_acute
              (mkRange (mkPoint "K" 3) (mkPoint "K" 3)) "K" "text" (js "cafe")
              Hrange Hnode Ho)
    as (params & Hdeliver & _ & _ & _ & Hcafe).
  exists params. split; [exact Hdeliver|]. apply Hcafe; reflexivity.
Defined.

(** C5 as stated fails in its order: with subscriber 7 on "K" in the middle
    of composing an accented e after "caf", the composition-end handler
    resets [isComposition] before it notifies the subscriber, not after. *)
Lemma composition_end_resets_flag_before_notifying :
  let tr := trace_of (handle (EVENT_COMPOSITION_END e_acute)
                        (composing_subscribed_editor doc_caf)) in
  tr = [SetIsComposition false; CallCompositionUpdate 7%nat None;
        SetCompositionInfo None; CallInsertText e_acute]
  /\ occurs_before (SetIsComposition false) (CallCompositionUpdate 7%nat None) tr
  /\ ~ occurs_before (CallCompositionUpdate 7%nat None) (SetIsComposition false) tr.
Proof.
  cbv zeta.
  assert (Htr : trace_of (handle (EVENT_COMPOSITION_END e_acute)
                            (composing_subscribed_editor doc_caf))
                = [SetIsComposition false; CallCompositionUpdate 7%nat None;
                   SetCompositionInfo None; CallInsertText e_acute])
    by reflexivity.
  rewrite Htr. split; [reflexivity|]. split.
  - exists 0%nat, 1%nat. repeat split. lia.
  - intros (i & j & Hlt & Hi & Hj).
    destruct i as [|[|[|[|i]]]]; try discriminate Hi.
    destruct j as [|[|[|[|j]]]]; try discriminate Hj. lia.
Qed.

Lemma composition_end_order_witness :
  _compositionInfo (composing_subscribed_editor doc_caf)
    = Some {| info_key := "K"; info_text := e_acute |}
  /\ compositionUpdateMap (composing_subscribed_editor doc_caf) !! "K" = Some 7%nat
  /\ trace_of (handle (EVENT_COMPOSITION_END e_acute)
                 (composing_subscribed_editor doc_caf))
     = [SetIsComposition false; CallCompositionUpdate 7%nat None;
        SetCompositionInfo None; CallInsertText e_acute]
  /\ _isComposition (state_of (handle (EVENT_COMPOSITION_END e_acute)
                                 (composing_subscribed_editor doc_caf))) = false.
Proof.
  assert (Hinfo : _compositionInfo (composing_subscribed_editor doc_caf)
                  = Some {| info_key := "K"; info_text := e_acute |})
    by reflexivity.
  assert (Hcb : compositionUpdateMap (composing_subscribed_editor doc_caf) !! "K"
                = Some 7%nat)
    by reflexivity.
  split; [exact Hinfo|]. split; [exact Hcb|].
  destruct (composition_end_order (composing_subscribed_editor doc_caf) e_acute
              {| info_key := "K"; info_text := e_acute |} 7%nat Hinfo Hcb)
    as (Htr & Hflag & _).
  split; [exact Htr | exact Hflag].
Defined.

(** The committed text ends up in the buffer: "caf" becomes "caf" followed
    by the accented e. *)
Lemma composition_end_commits_text :
  line_text (doc (state_of (handle (EVENT_COMPOSITION_END e_acute)
                              (composing_subscribed_editor doc_caf))))
  = js "caf" ++ e_acute.
Proof. reflexivity. Qed.

(** C6 as stated fails: while composing, with the selection covering
    offsets 1 to 3 of "cafe" and formatting pending, a value-change signal
    calls [deleteContents] and then [insertText] with the empty string
    before it computes the composition update. *)
Lemma composing_value_change_reaches_change_pipeline :
  let tr := trace_of (handle (EVENT_VALUE_CHANGE e_acute)
                        (composing_editor doc_selected_pending)) in
  _isComposition (composing_editor doc_selected_pending) = true
  /\ List.filter is_change_call tr = [CallDeleteContents; CallInsertText []]
  /\ List.filter is_change_call tr <> []
  /\ tr = [CallDeleteContents; CallInsertText [];
           SetCompositionInfo (Some {| info_key := "K"; info_text := e_acute |});
           CacheSet "K" (composition_params (js "ce") 1 e_acute)].
Proof.
  cbv zeta. split; [reflexivity|]. split; [reflexivity|]. split; [|reflexivity].
  intros H. vm_compute in H. discriminate H.
Qed.

Lemma composing_signals_insert_no_text_witness :
  _isComposition (composing_editor doc_selected_pending) = true
  /\ Forall (fun sg => composing_signal sg = true)
       [EVENT_VALUE_CHANGE e_acute;
        EVENT_NODE_UPDATE (Text "K" "text" (js "ce")) [mkOp "K" 0]]
  /\ Forall inserts_no_text
       (trace_of (handle_all
                    [EVENT_VALUE_CHANGE e_acute;
                     EVENT_NODE_UPDATE (Text "K" "text" (js "ce")) [mkOp "K" 0]]
                    (composing_editor doc_selected_pending))).
Proof.
  assert (Hss : Forall (fun sg => composing_signal sg = true)
                  [EVENT_VALUE_CHANGE e_acute;
                   EVENT_NODE_UPDATE (Text "K" "text" (js "ce")) [mkOp "K" 0]])
    by (repeat constructor).
  assert (Hcomp : _isComposition (composing_editor doc_selected_pending) = true)
    by reflexivity.
  split; [exact Hcomp|]. split; [exact Hss|].
  destruct (composing_signals_insert_no_text
              (composing_editor doc_selected_pending) _ Hcomp Hss)
    as ((_ & Hno) & _).
  exact Hno.
Defined.

Lemma composition_update_cached_then_replayed_witness :
  change_getRange (flushed (doc (line_editor doc_cafe)))
    = Some (mkRange (mkPoint "K" 3) (mkPoint "K" 3))
  /\ model_getNode (flushed (doc (line_editor doc_cafe))) "K"
     = Some (Text "K" "text" (js "cafe"))
  /\ compositionUpdateMap (line_editor doc_cafe) !! "K" = None
  /\ _cacheCompositionUpdate
       (state_of (emitCompositionUpdate e_acute (line_editor doc_cafe))) !! "K"
     = Some (composition_params (js "cafe") 3 e_acute)
  /\ trace_of (onCompositionUpdate "K" 7%nat
                 (state_of (emitCompositionUpdate e_acute (line_editor doc_cafe))))
     = [CallCompositionUpdate 7%nat (Some (composition_params (js "cafe") 3 e_acute));
        CompositionUpdateMapSet "K" 7%nat].
Proof.
  assert (Hrange : change_getRange (flushed (doc (line_editor doc_cafe)))
                   = Some (mkRange (mkPoint "K" 3) (mkPoint "K" 3)))
    by reflexivity.
  assert (Hnode : model_getNode (flushed (doc (line_editor doc_cafe))) "K"
                  = Some (Text "K" "text" (js "cafe")))
    by reflexivity.
  assert (Hnone : compositionUpdateMap (line_editor doc_cafe) !! "K" = None)
    by reflexivity.
  split; [exact Hrange|]. split; [exact Hnode|]. split; [exact Hnone|].
  destruct (composition_update_cached_then_replayed (line_editor doc_cafe) e_acute
              (mkRange (mkPoint "K" 3) (mkPoint "K" 3)) "K" "text" (js "cafe")
              Hrange Hnode)
    as (Hcached & _ & _).
  destruct (Hcached Hnone) as (Hcache & _ & Hreplay).
  split; [exact Hcache|]. exact (proj1 (Hreplay 7%nat)).
Defined.

(** C8 as stated fails for the notified node: with subscriber 1 on the
    paragraph "r" and 2 on its child "a", a notification for the paragraph
    with one operation for "a" and one for "b" invokes subscriber 2 with the
    operation for "a", and subscriber 1 with both operations, neither of
    which carries the key "r". *)
Lemma emitUpdate_notified_node_gets_all_ops :
  trace_of (emitUpdate sample_tree sample_ops tree_editor)
  = [CallUpdate 2%nat (Text "a" "text" (js "x")) [mkOp "a" 0];
     CallUpdate 1%nat sample_tree [mkOp "a" 0; mkOp "b" 1]]
  /\ ~ only_own_ops (sample_tree, [mkOp "a" 0; mkOp "b" 1])
  /\ Forall (fun op => op_key op <> getKey sample_tree) [mkOp "a" 0; mkOp "b" 1].
Proof.
  split; [reflexivity|]. split.
  - intros H. unfold only_own_ops in H. cbn [fst snd] in H.
    apply Forall_cons in H as [H _]. discriminate H.
  - repeat constructor; discriminate.
Qed.

(** * Further properties *)

(** ** Plugin selection and rendering *)

(** X1.  With an [enabledPlugins] list the instance map holds exactly the
    globally registered plugins whose names are in the list: names that are
    not registered are skipped, and a [disabledPlugins] list given along
    with it is ignored. *)
Theorem constructor_enabledPlugins_selects (g : IPluginMap) (names : list string)
    (d1 d2 : option (list string)) :
  (forall k : string,
     constructor_plugins g (Some (mkEditorOptions (Some names) d1)) !! k
     = if includes names k then g !! k else None)
  /\ constructor_plugins g (Some (mkEditorOptions (Some names) d1))
     = constructor_plugins g (Some (mkEditorOptions (Some names) d2))
  /\ constructor_plugins g (Some (mkEditorOptions (Some []) d1)) = ∅.
Proof.
  split; [intros k; apply constructor_enabled_lookup|]. split.
  - apply map_eq. intros k. by rewrite !constructor_enabled_lookup.
  - apply map_eq. intros k. rewrite constructor_enabled_lookup. simpl.
    by rewrite lookup_empty.
Qed.

(** X2.  An editor constructed without options, or with options that give
    neither list, takes every plugin of the global registry: its map is the
    registry as it was at construction. *)
Theorem constructor_without_lists_takes_registry (g : IPluginMap) :
  constructor_plugins g None = g
  /\ constructor_plugins g (Some (mkEditorOptions None None)) = g
  /\ (forall (type : string) (options : PluginArg),
        constructor_plugins (Editor_registerPlugin type options g) None !! type
        = Some (normalizeOptions options)).
Proof.
  destruct (constructor_default g) as [H1 H2].
  split; [exact H1|]. split; [exact H2|].
  intros type options.
  rewrite (proj1 (constructor_default (Editor_registerPlugin type options g))).
  apply lookup_insert_eq.
Qed.

Lemma rbind_rret_l {A B : Type} (a : A) (k : A -> RenderM B) :
  rbind (rret a) k = k a.
Proof. unfold rbind, rret. by destruct (k a). Qed.

Lemma renderPlugin_registered (policy : LogPolicy) (fuel : nat) (pm : IPluginMap)
    (node : Node) (p : PluginOptions) :
  pm !! getType node = Some p ->
  renderPlugin policy (S fuel) pm node
  = render p node (next_children policy fuel pm).
Proof.
  intros Hp. cbn [renderPlugin]. rewrite Hp. by rewrite rbind_rret_l.
Qed.

(** X3.  After the static [Editor.registerPlugin] of a render function for
    a type, an editor constructed without options renders a node of that
    type by calling the function on the node and on [next]; [renderPlugin]
    adds no diagnostic of its own. *)
Theorem registered_plugin_is_rendered (policy : LogPolicy) (fuel : nat)
    (g : IPluginMap) (f : PluginRender) (node : Node) :
  let pm := constructor_plugins
              (Editor_registerPlugin (getType node) (ArgFunction f) g) None in
  renderPlugin policy (S fuel) pm node = f node (next_children policy fuel pm).
Proof.
  cbv zeta.
  rewrite (proj1 (constructor_default
                    (Editor_registerPlugin (getType node) (ArgFunction f) g))).
  rewrite (renderPlugin_registered policy fuel _ node {| render := f |});
    [reflexivity|].
  unfold Editor_registerPlugin. cbn [normalizeOptions]. apply lookup_insert_eq.
Qed.

Lemma rmap_normal {A B : Type} (f : A -> RenderM B) (ds : A -> list Diagnostic)
    (rs : A -> B) (l : list A) :
  (forall c, In c l -> f c = (ds c, Normal (rs c))) ->
  rmap f l = (flat_map ds l, Normal (map rs l)).
Proof.
  induction l as [|x l IH]; intros H; [reflexivity|].
  cbn [rmap flat_map map]. rewrite (H x) by (by left).
  rewrite IH by (intros c Hc; apply H; by right).
  cbn [rbind rret fst snd]. by rewrite app_nil_r.
Qed.

Lemma rmap_throw {A B : Type} (f : A -> RenderM B) (ds : A -> list Diagnostic)
    (rs : A -> B) (pre post : list A) (c : A) (dc : list Diagnostic) (e : JSError) :
  (forall x, In x pre -> f x = (ds x, Normal (rs x))) ->
  f c = (dc, Throw e) ->
  rmap f (pre ++ c :: post) = (flat_map ds pre ++ dc, Throw e).
Proof.
  induction pre as [|x pre IH]; intros Hpre Hc.
  - cbn [app rmap flat_map]. rewrite Hc. reflexivity.
  - cbn [app rmap flat_map]. rewrite (Hpre x) by (by left).
    rewrite IH by (try done; intros y Hy; apply Hpre; by right).
    cbn [rbind fst snd]. by rewrite app_assoc.
Qed.

(** X4.  [next] yields undefined for a Text node.  For an Element it
    renders the children from first to last and returns the array of their
    results with their diagnostics in order; when a child throws, [next]
    throws the same error and the children after it are not rendered. *)
Theorem next_renders_children_until_failure (policy : LogPolicy) (fuel : nat)
    (pm : IPluginMap) (ds : Node -> list Diagnostic) (rs : Node -> Rendered) :
  (forall k t s, next_children policy fuel pm (Text k t s) = ([], Normal RUndefined))
  /\ (forall k t children,
        (forall c, In c children ->
           renderPlugin policy fuel pm c = (ds c, Normal (rs c))) ->
        next_children policy fuel pm (Element k t children)
        = (flat_map ds children, Normal (RArray (map rs children))))
  /\ (forall k t pre c post dc e,
        (forall x, In x pre ->
           renderPlugin policy fuel pm x = (ds x, Normal (rs x))) ->
        renderPlugin policy fuel pm c = (dc, Throw e) ->
        next_children policy fuel pm (Element k t (pre ++ c :: post))
        = (flat_map ds pre ++ dc, Throw e)).
Proof.
  split; [reflexivity|]. split.
  - intros k t children H. unfold next_children. cbn [isElement getChildren].
    rewrite (rmap_normal (fun child => renderPlugin policy fuel pm child)
               ds rs children H).
    cbn [rbind rret fst snd]. by rewrite app_nil_r.
  - intros k t pre c post dc e Hpre Hc. unfold next_children.
    cbn [isElement getChildren].
    rewrite (rmap_throw (fun child => renderPlugin policy fuel pm child)
               ds rs pre post c dc e Hpre Hc). reflexivity.
Qed.

Lemma next_renders_children_until_failure_witness :
  (forall x, In x [Text "k1" "a" (js "x")] ->
     renderPlugin LogReturns 1 registry_ab x = ([], Normal (RView "a" [])))
  /\ renderPlugin LogReturns 1 registry_ab (Text "k2" "paragraph" (js "y"))
     = ([DiagPluginNotFound "paragraph"], Throw TypeErrorUndefinedRender)
  /\ next_children LogReturns 1 registry_ab
       (Element "k0" "b" [Text "k1" "a" (js "x")])
     = ([], Normal (RArray [RView "a" []]))
  /\ next_children LogReturns 1 registry_ab
       (Element "k0" "b"
          ([Text "k1" "a" (js "x")]
           ++ Text "k2" "paragraph" (js "y") :: [Text "k3" "quote" (js "z")]))
     = ([DiagPluginNotFound "paragraph"], Throw TypeErrorUndefinedRender).
Proof.
  assert (Hpre : forall x, In x [Text "k1" "a" (js "x")] ->
            renderPlugin LogReturns 1 registry_ab x
            = ((fun _ => []) x, Normal ((fun _ => RView "a" []) x))).
  { intros x [<-|[]]. reflexivity. }
  assert (Hc : renderPlugin LogReturns 1 registry_ab (Text "k2" "paragraph" (js "y"))
               = ([DiagPluginNotFound "paragraph"], Throw TypeErrorUndefinedRender))
    by reflexivity.
  destruct (next_renders_children_until_failure LogReturns 1 registry_ab
              (fun _ => []) (fun _ => RView "a" [])) as (_ & Hall & Hfail).
  split; [exact Hpre|]. split; [exact Hc|]. split.
  - exact (Hall "k0" "b" [Text "k1" "a" (js "x")] Hpre).
  - exact (Hfail "k0" "b" [Text "k1" "a" (js "x")] _ [Text "k3" "quote" (js "z")]
             _ _ Hpre Hc).
Defined.

(** ** Segmentation *)

Lemma substring_prefix_any (s : JSString) (o : Z) :
  substring s 0 (Some o) = take (Z.to_nat o) s.
Proof.
  unfold substring, clamp.
  replace (Z.max 0 (Z.min 0 (js_length s))) with 0 by (unfold js_length; lia).
  replace (Z.min 0 (Z.max 0 (Z.min o (js_length s)))) with 0 by lia.
  rewrite Z.sub_0_r. change (drop (Z.to_nat 0) s) with s.
  destruct (Z_le_gt_dec o (js_length s)) as [Hle|Hgt].
  - f_equal. lia.
  - replace (Z.max 0 (Z.min o (js_length s))) with (js_length s)
      by (unfold js_length in *; lia).
    unfold js_length in *.
    transitivity s; [apply take_ge; lia | symmetry; apply take_ge; lia].
Qed.

Lemma substring_suffix_any (s : JSString) (o : Z) :
  substring s o None = drop (Z.to_nat o) s.
Proof.
  unfold substring, clamp.
  set (a := Z.max 0 (Z.min o (js_length s))).
  assert (Ha : 0 <= a <= js_length s) by (unfold a, js_length; lia).
  replace (Z.min a (js_length s)) with a by lia.
  replace (Z.max a (js_length s)) with (js_length s) by lia.
  rewrite take_ge by (rewrite length_drop; unfold js_length in *; lia).
  destruct (Z_le_gt_dec o (js_length s)) as [Hle|Hgt].
  - f_equal. unfold a. lia.
  - assert (Hal : a = js_length s) by (unfold a; lia).
    rewrite Hal. unfold js_length in *.
    transitivity (@nil N); [apply drop_ge; lia | symmetry; apply drop_ge; lia].
Qed.

(** X5.  For every node text, every integer offset (also negative or beyond
    the end) and every composed text, the segmentation has the composed text
    as its second chunk, has a third chunk exactly when the offset is below
    the length, and its text chunks joined give back the node text. *)
Theorem segmentation_text_chunks (s : JSString) (o : Z) (t : JSString) :
  text_of_chunks (segmentation s o t) = s
  /\ segmentation s o t !! 1%nat = Some {| char_type := "composition"; char_text := t |}
  /\ length (segmentation s o t) = if o <? js_length s then 3%nat else 2%nat.
Proof.
  unfold segmentation, text_of_chunks.
  rewrite substring_prefix_any, substring_suffix_any.
  destruct (Z.ltb_spec o (js_length s)) as [Hlt|Hge].
  - cbn. rewrite app_nil_r. split; [apply take_drop | done].
  - cbn. rewrite app_nil_r. split; [|done].
    apply take_ge. unfold js_length in Hge. lia.
Qed.

(** ** The align plugin *)

(** X19.  [Align.isAlign] looks only at the presence of the align
    attribute: an element with that property is accepted whatever the value
    stored under it, an element without it (own or inherited) is rejected,
    and a value that is not an element is rejected without the [in] test, so
    that the guard never throws when [Element.isElement] accepts objects
    only. *)
Theorem isAlign_tests_key_presence_only (Element_isElement : JSValue -> bool)
    (ALIGN_ATTR_KEY : string) (inherited : string -> bool) :
  (forall v, Element_isElement v = true -> exists props, v = VObject props) ->
  (forall v, exists b,
     isAlign Element_isElement ALIGN_ATTR_KEY inherited v = Some b)
  /\ (forall props x,
        Element_isElement (VObject ((ALIGN_ATTR_KEY, x) :: props)) = true ->
        isAlign Element_isElement ALIGN_ATTR_KEY inherited
          (VObject ((ALIGN_ATTR_KEY, x) :: props)) = Some true)
  /\ (forall props,
        has_own_property props ALIGN_ATTR_KEY = false ->
        inherited ALIGN_ATTR_KEY = false ->
        isAlign Element_isElement ALIGN_ATTR_KEY inherited (VObject props)
        = Some false)
  /\ (forall v, Element_isElement v = false ->
        isAlign Element_isElement ALIGN_ATTR_KEY inherited v = Some false).
Proof.
  intros Hobj. split; [|split; [|split]].
  - intros v. unfold isAlign.
    destruct (Element_isElement v) eqn:He; [|eauto].
    destruct (Hobj v He) as [props ->]. cbn [js_in]. eauto.
  - intros props x He. unfold isAlign. rewrite He.
    cbn [js_in has_own_property]. by rewrite String.eqb_refl.
  - intros props Hown Hinh. unfold isAlign.
    destruct (Element_isElement (VObject props)); [|done].
    cbn [js_in]. by rewrite Hown, Hinh.
  - intros v He. unfold isAlign. by rewrite He.
Qed.

Lemma isAlign_tests_key_presence_only_witness :
  (forall v, sample_isElement v = true -> exists props, v = VObject props)
  /\ ~ In "diagonal" AlignKeys
  /\ isAlign sample_isElement "textAlign" (fun _ => false)
       (VObject [("textAlign", VString "diagonal"); ("children", VObject [])])
     = Some true
  /\ isAlign sample_isElement "textAlign" (fun _ => false)
       (VObject [("textAlign", VUndefined); ("children", VObject [])])
     = Some true
  /\ isAlign sample_isElement "textAlign" (fun _ => false) VNull = Some false.
Proof.
  assert (Hobj : forall v, sample_isElement v = true -> exists props, v = VObject props).
  { intros [| | | | |props] H; try discriminate H. by exists props. }
  destruct (isAlign_tests_key_presence_only sample_isElement "textAlign"
              (fun _ => false) Hobj) as (_ & Hkey & _ & Hnot).
  split; [exact Hobj|]. split.
  - cbn. intros [H|[H|[H|[H|[]]]]]; discriminate H.
  - split; [apply Hkey; reflexivity|]. split; [apply Hkey; reflexivity|].
    apply Hnot. reflexivity.
Defined.

(** ** Composition updates at the edges *)

Section EditorProperties.

Context {D : Type} `{!Document D}.

Implicit Types (ed : Editor D) (key : NodeKey) (text data : JSString).

Lemma bind_run {A B : Type} (m : M D A) (k : A -> M D B) ed
    (a : A) (ed1 : Editor D) (t1 : list Event)
    (b : B) (ed2 : Editor D) (t2 : list Event) :
  m ed = (a, ed1, t1) -> k a ed1 = (b, ed2, t2) ->
  (m ≫= k) ed = (b, ed2, t1 ++ t2).
Proof.
  intros H1 H2. cbv beta iota zeta delta [mbind M_bind bind].
  by rewrite H1, H2.
Qed.

(** X6.  When the Change Pipeline has no range, a composition update
    records nothing: apart from the flush of pending formatting the editor
    is unchanged (no composing-info record, no cache entry), and no
    subscriber is invoked. *)
Theorem emitCompositionUpdate_without_range ed text :
  change_getRange (flushed (doc ed)) = None ->
  let r := emitCompositionUpdate text ed in
  trace_of r = flush_events (doc ed)
  /\ state_of r = with_doc (fun _ => flushed (doc ed)) ed.
Proof.
  unfold flushed, flush_events. intros Hrange. destruct ed as [pm um cm ic ci cc d].
  cbn [doc] in *. run_editor.
  destruct (change_hasCacheFormatting d); cbv beta iota in Hrange;
    run_editor; rewrite Hrange; run_editor; split; reflexivity.
Qed.

(** X7.  When the anchor key resolves to no node, or to a node that is not
    a Text, a composition update still records the composing key and text,
    but computes no segmentation: nothing is cached and no subscriber is
    invoked. *)
Theorem emitCompositionUpdate_anchor_not_text ed text (range : Range) :
  change_getRange (flushed (doc ed)) = Some range ->
  match model_getNode (flushed (doc ed)) (point_key (anchor range)) with
  | Some (Text _ _ _) => False
  | _ => True
  end ->
  let info := {| info_key := point_key (anchor range); info_text := text |} in
  let r := emitCompositionUpdate text ed in
  trace_of r = flush_events (doc ed) ++ [SetCompositionInfo (Some info)]
  /\ _compositionInfo (state_of r) = Some info
  /\ _cacheCompositionUpdate (state_of r) = _cacheCompositionUpdate ed
  /\ compositionUpdateMap (state_of r) = compositionUpdateMap ed.
Proof.
  unfold flushed, flush_events. intros Hrange Hnode. run_editor.
  destruct (change_hasCacheFormatting (doc ed)); cbv beta iota in Hrange, Hnode;
    run_editor; rewrite Hrange; run_editor;
    destruct (model_getNode _ (point_key (anchor range))) as [[k t cs|k t s]|];
    try contradiction; run_editor; repeat split.
Qed.

(** ** The composition cycle *)

Lemma handle_all_app ed (ss1 ss2 : list Signal) :
  state_of (handle_all (ss1 ++ ss2) ed)
    = state_of (handle_all ss2 (state_of (handle_all ss1 ed)))
  /\ trace_of (handle_all (ss1 ++ ss2) ed)
    = trace_of (handle_all ss1 ed)
      ++ trace_of (handle_all ss2 (state_of (handle_all ss1 ed))).
Proof.
  revert ed. induction ss1 as [|sg ss1 IH]; intros ed; [by split|].
  cbn [app handle_all]. rewrite !bind_state, !bind_trace.
  destruct (IH (state_of (handle sg ed))) as [Hs Ht].
  rewrite Hs, Ht. split; [reflexivity | by rewrite app_assoc].
Qed.

Lemma composing_run ed (ss : list Signal) :
  _isComposition ed = true ->
  Forall (fun sg => composing_signal sg = true) ss ->
  _isComposition (state_of (handle_all ss ed)) = true
  /\ Forall inserts_no_text (trace_of (handle_all ss ed)).
Proof.
  intros Hcomp Hss. revert ed Hcomp.
  induction Hss as [|sg ss Hsg Hss IH]; intros ed Hcomp.
  - split; [exact Hcomp | constructor].
  - cbn [handle_all]. rewrite bind_state, bind_trace.
    destruct (composing_signal_step ed sg Hcomp Hsg) as [Hc1 Ht1].
    destruct (IH (state_of (handle sg ed)) Hc1) as [Hc2 Ht2].
    split; [exact Hc2|]. apply Forall_app. by split.
Qed.

Lemma composition_end_shape ed data :
  let r := handle (EVENT_COMPOSITION_END data) ed in
  _isComposition (state_of r) = false
  /\ _compositionInfo (state_of r) = None
  /\ exists pre, trace_of r = pre ++ [CallInsertText data]
                 /\ Forall inserts_no_text pre.
Proof.
  run_editor. destruct (_compositionInfo ed) as [i|]; run_editor;
    [destruct (compositionUpdateMap ed !! info_key i) as [cb|]; run_editor|].
  - split; [done|]. split; [done|].
    exists [SetIsComposition false; CallCompositionUpdate cb None;
            SetCompositionInfo None].
    split; [done|]. repeat constructor; intros t Ht; discriminate Ht.
  - split; [done|]. split; [done|].
    exists [SetIsComposition false; SetCompositionInfo None].
    split; [done|]. repeat constructor; intros t Ht; discriminate Ht.
  - split; [done|]. split; [done|].
    exists [SetIsComposition false; SetCompositionInfo None].
    split; [done|]. repeat constructor; intros t Ht; discriminate Ht.
Qed.

(** X8.  A composition always comes back to idle: from any editor state,
    a composition-start signal, any run of value-change and node-update
    signals, and a composition-end signal leave [isComposition] false and no
    composing-info record; the last thing done is [insertText] of the
    committed text, and no [insertText] before it carries any text. *)
Theorem composition_cycle_returns_to_idle ed (ss : list Signal) data :
  Forall (fun sg => composing_signal sg = true) ss ->
  let r := handle_all (EVENT_COMPOSITION_START
                         :: ss ++ [EVENT_COMPOSITION_END data]) ed in
  _isComposition (state_of r) = false
  /\ _compositionInfo (state_of r) = None
  /\ last (trace_of r) = Some (CallInsertText data)
  /\ Forall inserts_no_text (removelast (trace_of r)).
Proof.
  intros Hss. cbv zeta. cbn [handle_all]. rewrite bind_state, bind_trace.
  set (ed0 := state_of (handle EVENT_COMPOSITION_START ed)).
  assert (Hc0 : _isComposition ed0 = true) by reflexivity.
  change (trace_of (handle EVENT_COMPOSITION_START ed))
    with [SetIsComposition true].
  destruct (handle_all_app ed0 ss [EVENT_COMPOSITION_END data]) as [Hs Ht].
  rewrite Hs, Ht.
  destruct (composing_run ed0 ss Hc0 Hss) as [_ Hno].
  set (ed1 := state_of (handle_all ss ed0)).
  cbn [handle_all]. rewrite bind_state, bind_trace.
  change (state_of (skip ?e)) with e.
  destruct (composition_end_shape ed1 data) as (Hflag & Hinfo & pre & Hpre & Hquiet).
  cbv zeta in Hflag, Hinfo, Hpre.
  change (state_of (skip (state_of (handle (EVENT_COMPOSITION_END data) ed1))))
    with (state_of (handle (EVENT_COMPOSITION_END data) ed1)).
  change (trace_of (skip (state_of (handle (EVENT_COMPOSITION_END data) ed1))))
    with (@nil Event).
  rewrite app_nil_r, Hpre.
  split; [exact Hflag|]. split; [exact Hinfo|].
  assert (Hshape : [SetIsComposition true]
                   ++ trace_of (handle_all ss ed0) ++ pre ++ [CallInsertText data]
                   = ([SetIsComposition true] ++ trace_of (handle_all ss ed0) ++ pre)
                     ++ [CallInsertText data])
    by (by rewrite <- !app_assoc).
  rewrite Hshape. split; [apply last_snoc|].
  rewrite removelast_last. apply Forall_app. split.
  - repeat constructor. intros t Hd. discriminate Hd.
  - apply Forall_app. by split.
Qed.

(** X9.  The composition-end handler leaves the cache and every
    subscription map as they are, so a segmentation cached during the
    composition is still replayed to a subscriber that registers after the
    composition has ended. *)
Theorem composition_end_keeps_cache ed data :
  let ed' := state_of (handle (EVENT_COMPOSITION_END data) ed) in
  _cacheCompositionUpdate ed' = _cacheCompositionUpdate ed
  /\ compositionUpdateMap ed' = compositionUpdateMap ed
  /\ updateMap ed' = updateMap ed
  /\ pluginMap ed' = pluginMap ed
  /\ (forall key (c : CompositionUpdateParams) (cb : CompositionUpdateCallback),
        _cacheCompositionUpdate ed !! key = Some c ->
        trace_of (onCompositionUpdate key cb ed')
        = [CallCompositionUpdate cb (Some c); CompositionUpdateMapSet key cb]).
Proof.
  assert (Hkeep : let ed' := state_of (handle (EVENT_COMPOSITION_END data) ed) in
            _cacheCompositionUpdate ed' = _cacheCompositionUpdate ed
            /\ compositionUpdateMap ed' = compositionUpdateMap ed
            /\ updateMap ed' = updateMap ed
            /\ pluginMap ed' = pluginMap ed).
  { run_editor. destruct (_compositionInfo ed) as [i|]; run_editor;
      [destruct (compositionUpdateMap ed !! info_key i) as [cb|]; run_editor|];
      repeat split. }
  cbv zeta in *. destruct Hkeep as (Hc & Hm & Hu & Hp).
  split; [exact Hc|]. split; [exact Hm|]. split; [exact Hu|]. split; [exact Hp|].
  intros key c cb Hlook. rewrite <- Hc in Hlook. revert Hlook.
  generalize (state_of (handle (EVENT_COMPOSITION_END data) ed)). intros ed' Hlook.
  run_editor. rewrite Hlook. reflexivity.
Qed.

(** X10.  Replaying the cache does not consume it: with a segmentation
    cached for a key, two [onCompositionUpdate] calls for that key each
    invoke their callback with it before registering, and the cache is left
    unchanged. *)
Theorem onCompositionUpdate_replays_without_consuming ed key
    (c : CompositionUpdateParams) (cb1 cb2 : CompositionUpdateCallback) :
  _cacheCompositionUpdate ed !! key = Some c ->
  let r := (onCompositionUpdate key cb1 ;; onCompositionUpdate key cb2) ed in
  trace_of r = [CallCompositionUpdate cb1 (Some c); CompositionUpdateMapSet key cb1;
                CallCompositionUpdate cb2 (Some c); CompositionUpdateMapSet key cb2]
  /\ _cacheCompositionUpdate (state_of r) = _cacheCompositionUpdate ed
  /\ compositionUpdateMap (state_of r) !! key = Some cb2.
Proof.
  intros Hc. do 3 (run_editor; rewrite ?Hc).
  split; [reflexivity|]. split; [reflexivity|]. apply lookup_insert_eq.
Qed.

(** X11.  [offCompositionUpdate] drops the subscriber and the cached
    segmentation of the key, whether or not either existed, and touches no
    other key; an [onCompositionUpdate] for the key after it replays
    nothing. *)
Theorem offCompositionUpdate_forgets_cache ed key (cb : CompositionUpdateCallback) :
  let ed1 := state_of (offCompositionUpdate key ed) in
  _cacheCompositionUpdate ed1 !! key = None
  /\ compositionUpdateMap ed1 !! key = None
  /\ trace_of (onCompositionUpdate key cb ed1) = [CompositionUpdateMapSet key cb]
  /\ (forall k', k' <> key ->
        _cacheCompositionUpdate ed1 !! k' = _cacheCompositionUpdate ed !! k'
        /\ compositionUpdateMap ed1 !! k' = compositionUpdateMap ed !! k').
Proof.
  run_editor. rewrite !lookup_delete_eq. run_editor.
  split; [done|]. split; [done|]. split; [done|].
  intros k' Hne. by rewrite !lookup_delete_ne.
Qed.

(** X12.  Subscribing and unsubscribing an update callback for a key that
    had none restores the update map; [offUpdate] for a key that has no
    callback changes nothing; and [onUpdate] leaves the callbacks of all
    other keys in place. *)
Theorem onUpdate_offUpdate_round_trip ed key (cb : NodeUpdateCallback) :
  updateMap ed !! key = None ->
  updateMap (state_of ((onUpdate key cb ;; offUpdate key) ed)) = updateMap ed
  /\ updateMap (state_of (offUpdate key ed)) = updateMap ed
  /\ (forall k', k' <> key ->
        updateMap (state_of (onUpdate key cb ed)) !! k' = updateMap ed !! k').
Proof.
  intros Hnone. run_editor. split; [by apply delete_insert_id|].
  split; [by apply delete_id|]. intros k' Hne. by rewrite lookup_insert_ne.
Qed.

End EditorProperties.

(** ** More on the fan-out *)

Lemma keys_of_unfold (node : Node) :
  keys_of node = flat_map keys_of (getChildren node) ++ [getKey node].
Proof.
  unfold keys_of. rewrite postorder_unfold, map_app. cbn [map]. f_equal.
  induction (getChildren node) as [|c cs IH]; [reflexivity|].
  cbn [flat_map]. by rewrite map_app, IH.
Qed.

Lemma descendants_keys (node : Node) :
  map getKey (descendants node) = flat_map keys_of (getChildren node).
Proof.
  unfold descendants. rewrite postorder_unfold, removelast_last.
  induction (getChildren node) as [|c cs IH]; [reflexivity|].
  cbn [flat_map]. by rewrite map_app, IH.
Qed.

Lemma ops_for_other (k1 k2 : NodeKey) (ops : list Op) :
  k1 <> k2 -> ops_for k2 (ops_for k1 ops) = [].
Proof.
  intros Hne. unfold ops_for. induction ops as [|op ops IH]; [reflexivity|].
  cbn [List.filter]. destruct (String.eqb_spec (op_key op) k1) as [Heq|_]; [|exact IH].
  cbn [List.filter]. destruct (String.eqb_spec (op_key op) k2) as [Heq2|_]; [|exact IH].
  congruence.
Qed.

Lemma visits_subtree (node : Node) (ops : list Op) (c : Node) (v : Node * list Op) :
  In c (getChildren node) ->
  In v (visits c (ops_for (getKey c) ops)) ->
  In v (visits node ops).
Proof.
  intros Hc Hv. rewrite visits_unfold. apply in_or_app. left.
  apply in_flat_map. eauto.
Qed.

Lemma flat_map_singletons {A B : Type} (f : A -> list B) (g : A -> B) (l : list A) :
  (forall x, In x l -> f x = [g x]) -> flat_map f l = map g l.
Proof.
  induction l as [|x l IH]; intros H; [reflexivity|].
  cbn [flat_map map]. rewrite (H x) by (by left).
  rewrite IH by (intros y Hy; apply H; by right). reflexivity.
Qed.

Lemma not_composing_in_incl {D : Type} (ed : Editor D) (keys keys' : list NodeKey) :
  (forall k, In k keys' -> In k keys) ->
  not_composing_in ed keys -> not_composing_in ed keys'.
Proof.
  unfold not_composing_in. intros Hincl H.
  destruct (_compositionInfo ed) as [i|]; [|done]. intros Hin. apply H, Hincl, Hin.
Qed.


Section FanOutProperties.

Context {D : Type} `{!Document D}.

Implicit Types (ed : Editor D) (key : NodeKey) (text data : JSString).

Lemma notify_node_quiet (node : Node) (ops : list Op) ed :
  not_composing_in ed [getKey node] ->
  notify_node node ops ed = (tt, ed, update_calls (updateMap ed) (node, ops)).
Proof.
  unfold notify_node, update_calls, not_composing_in. cbn [fst snd]. intros H.
  destruct (updateMap ed !! getKey node) as [cb1|] eqn:Hown;
    destruct (updateMap ed !! "*") as [cb2|] eqn:Hwild;
    destruct (_compositionInfo ed) as [i|] eqn:Hi;
    try (destruct (String.eqb_spec (info_key i) (getKey node)) as [Heq|Hne];
         [exfalso; apply H; by left|]);
    run_monad; rewrite ?Hown; run_monad; rewrite ?Hwild; run_monad;
    rewrite ?Hi; run_monad;
    try (destruct (String.eqb_spec (info_key i) (getKey node)) as [Heq|_];
         [contradiction|]);
    reflexivity.
Qed.

Lemma notify_node_refresh (node : Node) (ops : list Op) ed (i : CompositionInfo) :
  _compositionInfo ed = Some i ->
  info_key i = getKey node ->
  notify_node node ops ed
  = ((emitCompositionUpdate (info_text i) ed).1.1,
     state_of (emitCompositionUpdate (info_text i) ed),
     update_calls (updateMap ed) (node, ops)
     ++ trace_of (emitCompositionUpdate (info_text i) ed)).
Proof.
  unfold notify_node, update_calls. cbn [fst snd]. intros Hi Hkey.
  destruct (updateMap ed !! getKey node) as [cb1|] eqn:Hown;
    destruct (updateMap ed !! "*") as [cb2|] eqn:Hwild;
    run_monad; rewrite ?Hown; run_monad; rewrite ?Hwild; run_monad;
    rewrite Hi; run_monad; rewrite Hkey, String.eqb_refl;
    destruct (emitCompositionUpdate (info_text i) ed) as [[u e] t];
    reflexivity.
Qed.

Lemma emitUpdate_quiet (node : Node) :
  forall (ops : list Op) ed,
    not_composing_in ed (keys_of node) ->
    emitUpdate node ops ed
    = (tt, ed, flat_map (update_calls (updateMap ed)) (visits node ops)).
Proof.
  induction node as [k t cs IHcs|k t s] using Node_nested_ind; intros ops ed Hq.
  - rewrite keys_of_unfold in Hq. cbn [getChildren getKey] in Hq.
    assert (Hloop : forEach_emitUpdate cs ops ed
              = (tt, ed, flat_map (update_calls (updateMap ed))
                           (flat_map (fun c => visits c (ops_for (getKey c) ops)) cs))).
    { assert (Hcs : not_composing_in ed (flat_map keys_of cs))
        by (eapply not_composing_in_incl; [|exact Hq];
            intros x Hx; apply in_or_app; by left).
      clear Hq. induction cs as [|c cs IH]; [reflexivity|].
      apply Forall_cons in IHcs as [Hc Hrest]. cbn [flat_map] in Hcs.
      rewrite forEach_emitUpdate_cons.
      rewrite (bind_run _ _ ed tt ed _ tt ed _
                 (Hc (ops_for (getKey c) ops) ed
                    ltac:(eapply not_composing_in_incl; [|exact Hcs];
                          intros x Hx; apply in_or_app; by left))
                 (IH Hrest
                    ltac:(eapply not_composing_in_incl; [|exact Hcs];
                          intros x Hx; apply in_or_app; by right))).
      cbn [flat_map]. by rewrite flat_map_app. }
    rewrite emitUpdate_unfold. cbn [getChildren].
    rewrite (bind_run _ _ ed tt ed _ tt ed _ Hloop
               (notify_node_quiet (Element k t cs) ops ed
                  ltac:(eapply not_composing_in_incl; [|exact Hq];
                        intros x Hx; apply in_or_app; by right))).
    rewrite visits_unfold, flat_map_app. cbn [getChildren flat_map].
    by rewrite app_nil_r.
  - rewrite emitUpdate_unfold. cbn [getChildren forEach_emitUpdate fold_right].
    rewrite (bind_run _ _ ed tt ed [] tt ed _ eq_refl
               (notify_node_quiet (Text k t s) ops ed Hq)).
    cbn [visits flat_map app]. by rewrite app_nil_r.
Qed.

Lemma forEach_emitUpdate_quiet (cs : list Node) (ops : list Op) ed :
  not_composing_in ed (flat_map keys_of cs) ->
  forEach_emitUpdate cs ops ed
  = (tt, ed, flat_map (update_calls (updateMap ed))
               (flat_map (fun c => visits c (ops_for (getKey c) ops)) cs)).
Proof.
  induction cs as [|c cs IH]; intros Hq; [reflexivity|].
  cbn [flat_map] in Hq. rewrite forEach_emitUpdate_cons.
  rewrite (bind_run _ _ ed tt ed _ tt ed _
             (emitUpdate_quiet c (ops_for (getKey c) ops) ed
                ltac:(eapply not_composing_in_incl; [|exact Hq];
                      intros x Hx; apply in_or_app; by left))
             (IH ltac:(eapply not_composing_in_incl; [|exact Hq];
                       intros x Hx; apply in_or_app; by right))).
  cbn [flat_map]. by rewrite flat_map_app.
Qed.

(** X13.  A wildcard subscriber that is the only subscriber concerned (no
    node of the subtree has a subscriber under its own key) is invoked once
    for every node of the notified subtree, in bottom-up order, each time
    with the node and the operations of that visit. *)
Theorem wildcard_subscriber_once_per_node ed (node : Node) (ops : list Op)
    (cb : NodeUpdateCallback) :
  updateMap ed !! "*" = Some cb ->
  (forall n, In n (postorder node) -> updateMap ed !! getKey n = None) ->
  let calls := List.filter is_update_call (trace_of (emitUpdate node ops ed)) in
  calls = map (fun v => CallUpdate cb (fst v) (snd v)) (visits node ops)
  /\ length calls = length (postorder node).
Proof.
  intros Hwild Hown calls.
  destruct (emitUpdate_frame node ops ed) as (_ & _ & Hcalls & _).
  cbv zeta in Hcalls. fold calls in Hcalls.
  assert (Heq : calls = map (fun v => CallUpdate cb (fst v) (snd v)) (visits node ops)).
  { rewrite Hcalls. apply flat_map_singletons. intros v Hv. unfold update_calls.
    rewrite Hwild, Hown; [reflexivity|].
    rewrite <- (visits_fst node ops). apply in_map, Hv. }
  split; [exact Heq|].
  rewrite Heq, length_map, <- (visits_fst node ops), length_map. reflexivity.
Qed.

(** X14.  A grandchild of the notified node receives no operation: the list
    it is passed is filtered on its parent's key and then on its own, which
    leaves nothing when the two keys differ; a subscriber on the grandchild
    is still invoked, with an empty list. *)
Theorem grandchild_receives_no_operations ed (node : Node) (ops : list Op)
    (c g : Node) :
  In c (getChildren node) ->
  In g (getChildren c) ->
  getKey g <> getKey c ->
  In (g, []) (visits node ops)
  /\ (forall cb : NodeUpdateCallback,
        updateMap ed !! getKey g = Some cb ->
        In (CallUpdate cb g []) (trace_of (emitUpdate node ops ed))).
Proof.
  intros Hc Hg Hne.
  assert (Hv : In (g, []) (visits node ops)).
  { apply (visits_subtree node ops c); [exact Hc|].
    rewrite <- (ops_for_other (getKey c) (getKey g) ops) by congruence.
    by apply visits_children. }
  split; [exact Hv|]. intros cb Hcb.
  destruct (emitUpdate_frame node ops ed) as (_ & _ & Hcalls & _).
  cbv zeta in Hcalls.
  assert (Hin : In (CallUpdate cb g [])
                  (List.filter is_update_call (trace_of (emitUpdate node ops ed)))).
  { rewrite Hcalls. apply in_flat_map. exists (g, []). split; [exact Hv|].
    unfold update_calls. cbn [fst snd]. rewrite Hcb. apply in_or_app. left. by left. }
  by apply List.filter_In in Hin as [? _].
Qed.

(** X15.  When no node of the notified subtree is the one under composition
    (or nothing is being composed), the fan-out only invokes update
    subscribers: the editor state is unchanged and the trace is exactly the
    subscriber invocations of the visits, in order. *)
Theorem emitUpdate_outside_composition ed (node : Node) (ops : list Op) :
  not_composing_in ed (keys_of node) ->
  let r := emitUpdate node ops ed in
  state_of r = ed
  /\ trace_of r = flat_map (update_calls (updateMap ed)) (visits node ops)
  /\ Forall (fun e => is_update_call e = true) (trace_of r).
Proof.
  intros Hq. cbv zeta. rewrite (emitUpdate_quiet node ops ed Hq).
  split; [reflexivity|]. split; [reflexivity|].
  cbn [trace_of snd]. apply List.Forall_forall. intros e He.
  apply in_flat_map in He as (v & _ & He). unfold update_calls in He.
  apply in_app_or in He as [He|He];
    [destruct (updateMap ed !! getKey v.1) | destruct (updateMap ed !! "*")];
    cbn in He; try contradiction; destruct He as [<-|[]]; reflexivity.
Qed.

(** X16.  A node update for the node under composition re-emits the
    composition update with the composed text the Editor last recorded,
    after the update subscribers of the subtree have been invoked. *)
Theorem node_update_refreshes_composition ed (node : Node) (ops : list Op)
    (i : CompositionInfo) :
  _compositionInfo ed = Some i ->
  info_key i = getKey node ->
  ~ In (info_key i) (map getKey (descendants node)) ->
  let r := emitUpdate node ops ed in
  state_of r = state_of (emitCompositionUpdate (info_text i) ed)
  /\ trace_of r
     = flat_map (update_calls (updateMap ed)) (visits node ops)
       ++ trace_of (emitCompositionUpdate (info_text i) ed).
Proof.
  intros Hi Hkey Hdesc. cbv zeta.
  assert (Hq : not_composing_in ed (flat_map keys_of (getChildren node))).
  { unfold not_composing_in. rewrite Hi. by rewrite <- descendants_keys. }
  rewrite emitUpdate_unfold.
  rewrite (bind_run _ _ ed tt ed _ _ _ _
             (forEach_emitUpdate_quiet (getChildren node) ops ed Hq)
             (notify_node_refresh node ops ed i Hi Hkey)).
  split; [reflexivity|].
  cbn [trace_of snd]. rewrite visits_unfold, flat_map_app.
  cbn [flat_map]. by rewrite app_nil_r, app_assoc.
Qed.


(** X18.  Outside a composition, a value-change signal erases a
    non-collapsed selection and then passes its text to [insertText]; the
    composition state, the cache and the subscriptions are not touched. *)
Theorem value_change_outside_composition ed (value : JSString) :
  _isComposition ed = false ->
  let erase := if selection_isCollapsed (doc ed) then [] else [CallDeleteContents] in
  let ed1 := if selection_isCollapsed (doc ed) then ed
             else with_doc change_deleteContents ed in
  let r := handle (EVENT_VALUE_CHANGE value) ed in
  trace_of r = erase ++ [CallInsertText value]
  /\ state_of r = with_doc (change_insertText value) ed1.
Proof.
  intros Hcomp. cbv zeta.
  unfold handle, on_value_change, isComposition, call_deleteContents,
    call_insertText.
  destruct (selection_isCollapsed (doc ed)) eqn:Hcol;
    run_monad; rewrite Hcol; cbn [negb]; run_monad; rewrite Hcomp; run_monad;
    split; rewrite ?Hcomp; reflexivity.
Qed.

End FanOutProperties.

(** ** The further properties on concrete documents *)

Lemma emitCompositionUpdate_without_range_witness :
  change_getRange (flushed (doc (new_Editor ∅ None tree_no_selection))) = None
  /\ trace_of (emitCompositionUpdate e_acute (new_Editor ∅ None tree_no_selection)) = []
  /\ _compositionInfo
       (state_of (emitCompositionUpdate e_acute (new_Editor ∅ None tree_no_selection)))
     = None.
Proof.
  assert (Hrange : change_getRange
                     (flushed (doc (new_Editor ∅ None tree_no_selection))) = None)
    by reflexivity.
  destruct (emitCompositionUpdate_without_range
              (new_Editor ∅ None tree_no_selection) e_acute Hrange) as [Htr Hst].
  split; [exact Hrange|]. split; [exact Htr|]. rewrite Hst. reflexivity.
Defined.

Lemma emitCompositionUpdate_anchor_not_text_witness :
  change_getRange (flushed (doc (new_Editor ∅ None tree_caret_on_image)))
    = Some (mkRange (mkPoint "i" 0) (mkPoint "i" 0))
  /\ model_getNode (flushed (doc (new_Editor ∅ None tree_caret_on_image))) "i"
     = Some (Element "i" "image" [])
  /\ trace_of (emitCompositionUpdate e_acute (new_Editor ∅ None tree_caret_on_image))
     = [SetCompositionInfo (Some {| info_key := "i"; info_text := e_acute |})]
  /\ _cacheCompositionUpdate
       (state_of (emitCompositionUpdate e_acute
                    (new_Editor ∅ None tree_caret_on_image)))
     = ∅.
Proof.
  assert (Hrange : change_getRange
                     (flushed (doc (new_Editor ∅ None tree_caret_on_image)))
                   = Some (mkRange (mkPoint "i" 0) (mkPoint "i" 0)))
    by reflexivity.
  assert (Hnode : match model_getNode
                          (flushed (doc (new_Editor ∅ None tree_caret_on_image)))
                          (point_key (anchor (mkRange (mkPoint "i" 0) (mkPoint "i" 0))))
                  with
                  | Some (Text _ _ _) => False
                  | _ => True
                  end)
    by exact I.
  destruct (emitCompositionUpdate_anchor_not_text
              (new_Editor ∅ None tree_caret_on_image) e_acute
              (mkRange (mkPoint "i" 0) (mkPoint "i" 0)) Hrange Hnode)
    as (Htr & _ & Hcache & _).
  split; [exact Hrange|]. split; [reflexivity|]. split; [exact Htr | exact Hcache].
Defined.

Lemma composition_cycle_returns_to_idle_witness :
  Forall (fun sg => composing_signal sg = true) [EVENT_VALUE_CHANGE e_acute]
  /\ _isComposition
       (state_of (handle_all
                    (EVENT_COMPOSITION_START
                       :: [EVENT_VALUE_CHANGE e_acute]
                          ++ [EVENT_COMPOSITION_END e_acute])
                    (line_editor doc_caf))) = false
  /\ last (trace_of (handle_all
                       (EVENT_COMPOSITION_START
                          :: [EVENT_VALUE_CHANGE e_acute]
                             ++ [EVENT_COMPOSITION_END e_acute])
                       (line_editor doc_caf)))
     = Some (CallInsertText e_acute).
Proof.
  assert (Hss : Forall (fun sg => composing_signal sg = true)
                  [EVENT_VALUE_CHANGE e_acute])
    by (repeat constructor).
  destruct (composition_cycle_returns_to_idle (line_editor doc_caf)
              [EVENT_VALUE_CHANGE e_acute] e_acute Hss) as (Hflag & _ & Hlast & _).
  split; [exact Hss|]. split; [exact Hflag | exact Hlast].
Defined.

Lemma onCompositionUpdate_replays_without_consuming_witness :
  _cacheCompositionUpdate cached_editor !! "K"
    = Some (composition_params (js "cafe") 3 e_acute)
  /\ trace_of ((onCompositionUpdate "K" 1%nat ;; onCompositionUpdate "K" 2%nat)
                 cached_editor)
     = [CallCompositionUpdate 1%nat (Some (composition_params (js "cafe") 3 e_acute));
        CompositionUpdateMapSet "K" 1%nat;
        CallCompositionUpdate 2%nat (Some (composition_params (js "cafe") 3 e_acute));
        CompositionUpdateMapSet "K" 2%nat].
Proof.
  assert (Hc : _cacheCompositionUpdate cached_editor !! "K"
               = Some (composition_params (js "cafe") 3 e_acute))
    by reflexivity.
  destruct (onCompositionUpdate_replays_without_consuming cached_editor "K"
              _ 1%nat 2%nat Hc) as (Htr & _).
  split; [exact Hc | exact Htr].
Defined.

Lemma onUpdate_offUpdate_round_trip_witness :
  updateMap (line_editor doc_caf) !! "K" = None
  /\ updateMap (state_of ((onUpdate "K" 1%nat ;; offUpdate "K") (line_editor doc_caf)))
     = updateMap (line_editor doc_caf).
Proof.
  assert (Hnone : updateMap (line_editor doc_caf) !! "K" = None) by reflexivity.
  destruct (onUpdate_offUpdate_round_trip (line_editor doc_caf) "K" 1%nat Hnone)
    as (Hround & _).
  split; [exact Hnone | exact Hround].
Defined.

Lemma wildcard_subscriber_once_per_node_witness :
  updateMap wildcard_editor !! "*" = Some 9%nat
  /\ (forall n, In n (postorder sample_tree) ->
        updateMap wildcard_editor !! getKey n = None)
  /\ List.filter is_update_call
       (trace_of (emitUpdate sample_tree sample_ops wildcard_editor))
     = [CallUpdate 9%nat (Text "a" "text" (js "x")) [mkOp "a" 0];
        CallUpdate 9%nat (Text "b" "text" (js "y")) [mkOp "b" 1];
        CallUpdate 9%nat sample_tree sample_ops].
Proof.
  assert (Hwild : updateMap wildcard_editor !! "*" = Some 9%nat) by reflexivity.
  assert (Hown : forall n, In n (postorder sample_tree) ->
                   updateMap wildcard_editor !! getKey n = None).
  { intros n [<-|[<-|[<-|[]]]]; reflexivity. }
  destruct (wildcard_subscriber_once_per_node wildcard_editor sample_tree
              sample_ops 9%nat Hwild Hown) as (Hcalls & _).
  split; [exact Hwild|]. split; [exact Hown | exact Hcalls].
Defined.

Lemma grandchild_receives_no_operations_witness :
  In (Element "p" "paragraph" [Text "t" "text" (js "ab")]) (getChildren sample_nested)
  /\ In (Text "t" "text" (js "ab"))
       (getChildren (Element "p" "paragraph" [Text "t" "text" (js "ab")]))
  /\ "t" <> "p"
  /\ In (Text "t" "text" (js "ab"), [])
       (visits sample_nested [mkOp "t" 0; mkOp "p" 1]).
Proof.
  assert (Hc : In (Element "p" "paragraph" [Text "t" "text" (js "ab")])
                 (getChildren sample_nested)) by (by left).
  assert (Hg : In (Text "t" "text" (js "ab"))
                 (getChildren (Element "p" "paragraph" [Text "t" "text" (js "ab")])))
    by (by left).
  assert (Hne : getKey (Text "t" "text" (js "ab"))
                <> getKey (Element "p" "paragraph" [Text "t" "text" (js "ab")]))
    by discriminate.
  destruct (grandchild_receives_no_operations tree_editor sample_nested
              [mkOp "t" 0; mkOp "p" 1] _ _ Hc Hg Hne) as (Hv & _).
  split; [exact Hc|]. split; [exact Hg|]. split; [exact Hne | exact Hv].
Defined.

Lemma emitUpdate_outside_composition_witness :
  not_composing_in tree_editor (keys_of sample_tree)
  /\ state_of (emitUpdate sample_tree sample_ops tree_editor) = tree_editor
  /\ trace_of (emitUpdate sample_tree sample_ops tree_editor)
     = [CallUpdate 2%nat (Text "a" "text" (js "x")) [mkOp "a" 0];
        CallUpdate 1%nat sample_tree [mkOp "a" 0; mkOp "b" 1]].
Proof.
  assert (Hq : not_composing_in tree_editor (keys_of sample_tree)) by exact I.
  destruct (emitUpdate_outside_composition tree_editor sample_tree sample_ops Hq)
    as (Hst & Htr & _).
  split; [exact Hq|]. split; [exact Hst | exact Htr].
Defined.

Lemma node_update_refreshes_composition_witness :
  _compositionInfo (composing_subscribed_editor doc_caf)
    = Some {| info_key := "K"; info_text := e_acute |}
  /\ ~ In "K" (map getKey (descendants (Text "K" "text" (js "caf"))))
  /\ trace_of (emitUpdate (Text "K" "text" (js "caf")) []
                 (composing_subscribed_editor doc_caf))
     = [SetCompositionInfo (Some {| info_key := "K"; info_text := e_acute |});
        CacheDelete "K";
        CallCompositionUpdate 7%nat (Some (composition_params (js "caf") 3 e_acute))].
Proof.
  assert (Hi : _compositionInfo (composing_subscribed_editor doc_caf)
               = Some {| info_key := "K"; info_text := e_acute |})
    by reflexivity.
  assert (Hd : ~ In (info_key {| info_key := "K"; info_text := e_acute |})
                 (map getKey (descendants (Text "K" "text" (js "caf")))))
    by (intros []).
  destruct (node_update_refreshes_composition (composing_subscribed_editor doc_caf)
              (Text "K" "text" (js "caf")) [] _ Hi eq_refl Hd) as (_ & Htr).
  split; [exact Hi|]. split; [exact Hd | exact Htr].
Defined.

Lemma value_change_outside_composition_witness :
  _isComposition (line_editor doc_selected_pending) = false
  /\ trace_of (handle (EVENT_VALUE_CHANGE e_acute) (line_editor doc_selected_pending))
     = [CallDeleteContents; CallInsertText e_acute]
  /\ line_text (doc (state_of (handle (EVENT_VALUE_CHANGE e_acute)
                                 (line_editor doc_selected_pending))))
     = js "c" ++ e_acute ++ js "e".
Proof.
  assert (Hc : _isComposition (line_editor doc_selected_pending) = false)
    by reflexivity.
  destruct (value_change_outside_composition (line_editor doc_selected_pending)
              e_acute Hc) as (Htr & Hst).
  split; [exact Hc|]. split; [exact Htr|]. rewrite Hst. reflexivity.
Defined.

(** ** The cache holds the latest segmentation *)

Section CacheProperties.

Context {D : Type} `{!Document D}.

(** X20.  Without a subscriber, each composition update on a Text anchor
    overwrites the cache entry of the key: after two updates in a row the
    cache holds the segmentation of the second one only, and that is what a
    subscriber registering afterwards is given. *)
Theorem cache_keeps_latest_segmentation (ed : Editor D) (t1 t2 : JSString)
    (range1 range2 : Range) (k1 k2 : NodeKey) (ty1 ty2 : string)
    (s1 s2 : JSString) (cb : CompositionUpdateCallback) :
  let key := point_key (anchor range1) in
  let ed1 := state_of (emitCompositionUpdate t1 ed) in
  let ed2 := state_of (emitCompositionUpdate t2 ed1) in
  change_getRange (flushed (doc ed)) = Some range1 ->
  model_getNode (flushed (doc ed)) key = Some (Text k1 ty1 s1) ->
  change_getRange (flushed (doc ed1)) = Some range2 ->
  model_getNode (flushed (doc ed1)) (point_key (anchor range2))
    = Some (Text k2 ty2 s2) ->
  point_key (anchor range2) = key ->
  compositionUpdateMap ed !! key = None ->
  _cacheCompositionUpdate ed2 !! key
    = Some (composition_params s2 (point_offset (anchor range2)) t2)
  /\ trace_of (onCompositionUpdate key cb ed2)
     = [CallCompositionUpdate cb
          (Some (composition_params s2 (point_offset (anchor range2)) t2));
        CompositionUpdateMapSet key cb].
Proof.
  intros key ed1 ed2 Hr1 Hn1 Hr2 Hn2 Hkey Hnone.
  destruct (emitCompositionUpdate_unsubscribed ed t1 range1 k1 ty1 s1 Hr1 Hn1 Hnone)
    as (_ & _ & Hmap1 & _).
  fold ed1 in Hmap1.
  assert (Hnone1 : compositionUpdateMap ed1 !! point_key (anchor range2) = None)
    by (rewrite Hmap1, Hkey; exact Hnone).
  destruct (emitCompositionUpdate_unsubscribed ed1 t2 range2 k2 ty2 s2 Hr2 Hn2 Hnone1)
    as (_ & Hcache2 & _).
  fold ed2 in Hcache2. rewrite Hkey in Hcache2.
  assert (Hlook : _cacheCompositionUpdate ed2 !! key
                  = Some (composition_params s2 (point_offset (anchor range2)) t2))
    by (rewrite Hcache2; apply lookup_insert_eq).
  split; [exact Hlook|].
  revert Hlook. generalize ed2. intros e Hlook.
  run_editor. rewrite Hlook. reflexivity.
Qed.

End CacheProperties.

Lemma cache_keeps_latest_segmentation_witness :
  _cacheCompositionUpdate
    (state_of (emitCompositionUpdate (e_acute ++ e_acute)
                 (state_of (emitCompositionUpdate e_acute (line_editor doc_cafe)))))
    !! "K"
  = Some (composition_params (js "cafe") 3 (e_acute ++ e_acute)).
Proof.
  assert (Hr : change_getRange (flushed (doc (line_editor doc_cafe)))
               = Some (mkRange (mkPoint "K" 3) (mkPoint "K" 3)))
    by reflexivity.
  assert (Hn : model_getNode (flushed (doc (line_editor doc_cafe))) "K"
               = Some (Text "K" "text" (js "cafe")))
    by reflexivity.
  assert (Hr2 : change_getRange
                  (flushed (doc (state_of (emitCompositionUpdate e_acute
                                             (line_editor doc_cafe)))))
                = Some (mkRange (mkPoint "K" 3) (mkPoint "K" 3)))
    by reflexivity.
  assert (Hn2 : model_getNode
                  (flushed (doc (state_of (emitCompositionUpdate e_acute
                                             (line_editor doc_cafe))))) "K"
                = Some (Text "K" "text" (js "cafe")))
    by reflexivity.
  assert (Hnone : compositionUpdateMap (line_editor doc_cafe) !! "K" = None)
    by reflexivity.
  exact (proj1 (cache_keeps_latest_segmentation (line_editor doc_cafe)
                  e_acute (e_acute ++ e_acute)
                  (mkRange (mkPoint "K" 3) (mkPoint "K" 3))
                  (mkRange (mkPoint "K" 3) (mkPoint "K" 3))
                  "K" "K" "text" "text" (js "cafe") (js "cafe") 0%nat
                  Hr Hn Hr2 Hn2 eq_refl Hnone)).
Defined.
